(** * Poker Control: ledger, settlement and lifecycle

    A shallow embedding of the game engine that lives inside the [App]
    component (state, derived totals, debtors, ranking, chip audit and the
    mutation handlers) together with the entity types of [types.ts].

    Conventions of the embedding.
    - A JavaScript [number] is kept in the state as the decimal that was
      entered, a rational ([Q]).  The handlers only store and compare such
      numbers, so the lifecycle is stated on them directly.
    - The derived figures are computed twice.  Modules [Ledger] and
      [Settlement] compute them in exact arithmetic; they serve the
      statements about order, about comparison with 0 and about one
      computation giving the same result on two states.  Module [Double]
      repeats the ledger and the chip audit in IEEE-754 binary64, operation
      by operation; the statements about the value of a figure are made
      there.
    - A JavaScript string is the list of its UTF-16 code units.
    - [crypto.randomUUID()] and [Date.now()] are inputs of the command that
      uses them.
    - [setGameState (prev => ...)] is the function [GameState -> GameState]
      it is given; a handler that returns early leaves the state as it is. *)

From Stdlib Require Import List Bool Arith NArith ZArith QArith Qabs Lia Lqa.
From Stdlib Require Import Sorted Permutation String Ascii.
From Stdlib Require Floats.
Import ListNotations.

(** ** JavaScript strings *)

Module JsString.

Definition codeUnit := N.
Definition t := list codeUnit.

Definition eqb (a b : t) : bool :=
  if list_eq_dec N.eq_dec a b then true else false.

(** A literal: the code units of an ASCII string. *)
Definition lit (s : string) : t := map N_of_ascii (list_ascii_of_string s).

(** The code points [String.prototype.trim] strips: ECMAScript's
    WhiteSpace (TAB, VT, FF, ZWNBSP and the space separators) and
    LineTerminator (LF, CR, LS, PS).  All of them are single code units. *)
Definition whiteSpaceCodes : list N :=
  [9; 10; 11; 12; 13; 32; 160; 5760;
   8192; 8193; 8194; 8195; 8196; 8197; 8198; 8199; 8200; 8201; 8202;
   8232; 8233; 8239; 8287; 12288; 65279]%N.

Definition isWhiteSpace (c : codeUnit) : bool :=
  existsb (N.eqb c) whiteSpaceCodes.

Fixpoint trimStart (s : t) : t :=
  match s with
  | [] => []
  | c :: s' => if isWhiteSpace c then trimStart s' else s
  end.

Definition trimEnd (s : t) : t := rev (trimStart (rev s)).

Definition trim (s : t) : t := trimEnd (trimStart s).

(** Truthiness of a string: the empty string is the only falsy one. *)
Definition truthy (s : t) : bool :=
  match s with [] => false | _ :: _ => true end.

End JsString.

Definition jsString : Type := JsString.t.

(** ** Entity model ([types.ts]) *)

Inductive PaymentStatus := PAID | PENDING.

Definition PaymentStatus_eqb (a b : PaymentStatus) : bool :=
  match a, b with
  | PAID, PAID | PENDING, PENDING => true
  | _, _ => false
  end.

Record Rebuy := mkRebuy {
  rebuy_id : jsString;
  amount : Q;
  status : PaymentStatus;
  timestamp : Z
}.

Record Player := mkPlayer {
  id : jsString;
  name : jsString;
  buyInStatus : PaymentStatus;
  rebuys : list Rebuy;
  cashoutAmount : option Q   (* [None]: the key is absent (undefined) *)
}.

Record GameConfig := mkGameConfig {
  buyInAmount : Q
}.

Record GameState := mkGameState {
  isStarted : bool;
  finished : bool;
  config : GameConfig;
  players : list Player
}.

Definition HOUSE_FEE_FIXED : Q := 10.

Definition INITIAL_STATE : GameState :=
  {| isStarted := false;
     finished := false;
     config := {| buyInAmount := 50 |};
     players := [] |}.

(** Object spread with one overridden key. *)
Definition withBuyInStatus (p : Player) (s : PaymentStatus) : Player :=
  {| id := id p; name := name p; buyInStatus := s;
     rebuys := rebuys p; cashoutAmount := cashoutAmount p |}.

Definition withRebuys (p : Player) (rs : list Rebuy) : Player :=
  {| id := id p; name := name p; buyInStatus := buyInStatus p;
     rebuys := rs; cashoutAmount := cashoutAmount p |}.

Definition withCashoutAmount (p : Player) (a : Q) : Player :=
  {| id := id p; name := name p; buyInStatus := buyInStatus p;
     rebuys := rebuys p; cashoutAmount := Some a |}.

Definition withStatus (r : Rebuy) (s : PaymentStatus) : Rebuy :=
  {| rebuy_id := rebuy_id r; amount := amount r; status := s;
     timestamp := timestamp r |}.

Definition withPlayers (st : GameState) (ps : list Player) : GameState :=
  {| isStarted := isStarted st; finished := finished st;
     config := config st; players := ps |}.

(** ** Exact sums *)

Definition Qsum (l : list Q) : Q := fold_right Qplus 0 l.

(** [xs.reduce((sum, x) => sum + f(x), 0)] *)
Definition reduceSum {A} (f : A -> Q) (xs : list A) : Q :=
  fold_left (fun sum x => sum + f x) xs 0.

(** ** Ledger engine, in exact arithmetic

    What the ledger computes when no operation rounds.  The values the
    program shows are those of [Double]; the two agree on which players
    count, on the order of the operations and on every status test. *)

Module Ledger.

(** [gameState.players.filter(p => p.name && p.name.trim() !== '')] *)
Definition isValid (p : Player) : bool :=
  JsString.truthy (name p) && negb (JsString.eqb (JsString.trim (name p)) []).

Definition validPlayers (st : GameState) : list Player :=
  filter isValid (players st).

Record Totals := mkTotals {
  totalBuyIns : Q;
  totalRebuys : Q;
  totalFees : Q;
  totalChips : Q;
  totalPaid : Q;
  totalPending : Q
}.

Definition zeroTotals : Totals := mkTotals 0 0 0 0 0 0.

(** Body of the inner [p.rebuys.forEach]. *)
Definition rebuyStep (t : Totals) (r : Rebuy) : Totals :=
  {| totalBuyIns := totalBuyIns t;
     totalRebuys := totalRebuys t + amount r;
     totalFees := totalFees t;
     totalChips := totalChips t + amount r;
     totalPaid :=
       match status r with
       | PAID => totalPaid t + amount r
       | PENDING => totalPaid t
       end;
     totalPending :=
       match status r with
       | PAID => totalPending t
       | PENDING => totalPending t + amount r
       end |}.

(** Body of the outer [validPlayers.forEach]. *)
Definition playerStep (st : GameState) (t : Totals) (p : Player) : Totals :=
  let buyIn := buyInAmount (config st) in
  let buyInChips := buyIn - HOUSE_FEE_FIXED in
  let t1 :=
    {| totalBuyIns := totalBuyIns t + buyIn;
       totalRebuys := totalRebuys t;
       totalFees := totalFees t + HOUSE_FEE_FIXED;
       totalChips := totalChips t + buyInChips;
       totalPaid :=
         match buyInStatus p with
         | PAID => totalPaid t + buyIn
         | PENDING => totalPaid t
         end;
       totalPending :=
         match buyInStatus p with
         | PAID => totalPending t
         | PENDING => totalPending t + buyIn
         end |} in
  fold_left rebuyStep (rebuys p) t1.

Definition calculateTotals (st : GameState) : Totals :=
  fold_left (playerStep st) (validPlayers st) zeroTotals.

(** Per-player figures, as computed for the debtor list and again for the
    player detail view. *)
Definition paidCash (st : GameState) (p : Player) : Q :=
  (match buyInStatus p with
   | PAID => buyInAmount (config st)
   | PENDING => 0
   end)
  + fold_left
      (fun sum r =>
         match status r with PAID => sum + amount r | PENDING => sum end)
      (rebuys p) 0.

Definition totalCostCash (st : GameState) (p : Player) : Q :=
  buyInAmount (config st) + reduceSum amount (rebuys p).

Definition pendingCash (st : GameState) (p : Player) : Q :=
  totalCostCash st p - paidCash st p.

Definition investedChips (st : GameState) (p : Player) : Q :=
  let buyInChips := buyInAmount (config st) - HOUSE_FEE_FIXED in
  buyInChips + reduceSum amount (rebuys p).

Record Debtor := mkDebtor {
  debtor_id : jsString;
  debtor_name : jsString;
  pending : Q
}.

Definition debtors (st : GameState) : list Debtor :=
  filter (fun d => if Qlt_le_dec 0 (pending d) then true else false)
    (map (fun player =>
            {| debtor_id := id player;
               debtor_name := name player;
               pending := pendingCash st player |})
       (validPlayers st)).

End Ledger.

(** ** [Array.prototype.sort]

    ECMAScript requires [sort] to be stable and, for a consistent comparator,
    to return the elements in an order the comparator agrees with; that
    determines the result.  The model is the stable insertion sort: an
    element moves behind [y] only when [comparefn(x, y) > 0]. *)

Section ArraySort.

Variable A : Type.
Variable comparefn : A -> A -> Q.

Fixpoint insert (x : A) (l : list A) : list A :=
  match l with
  | [] => [x]
  | y :: l' =>
      if Qlt_le_dec 0 (comparefn x y) then y :: insert x l' else x :: l
  end.

Definition sort (l : list A) : list A := fold_right insert [] l.

(** The comparator lets [x] stand before [y]. *)
Definition mayPrecede (x y : A) : Prop := comparefn x y <= 0.

End ArraySort.

Arguments insert {A} comparefn x l.
Arguments sort {A} comparefn l.
Arguments mayPrecede {A} comparefn x y.

(** ** Settlement and ranking (views CASHOUT and RANKING), in exact
    arithmetic *)

Module Settlement.

(** [p.cashoutAmount || 0]: an absent amount and the amount 0 both give 0. *)
Definition orZero (a : option Q) : Q :=
  match a with
  | Some q => if Qeq_bool q 0 then 0 else q
  | None => 0
  end.

(** An entry of the ranking: the player ([...p]) and the derived figures. *)
Record Ranked := mkRanked {
  player : Player;
  investedChips : Q;
  out : Q;
  performanceRatio : Q;
  rankingFee : Q;
  net : Q
}.

(** Division of JavaScript numbers, seen from the rationals: a zero
    divisor gives [Infinity], [-Infinity] or [NaN], none of them a
    rational. *)
Definition divide (a b : Q) : option Q :=
  if Qeq_bool b 0 then None else Some (a / b).

(** [investedChips > 0 ? (out / investedChips) : 0], with the division
    that can leave the rationals. *)
Definition performanceRatioOf (out investedChips : Q) : option Q :=
  if Qlt_le_dec 0 investedChips then divide out investedChips else Some 0.

(** The callback of [[...validPlayers].map]. *)
Definition rank (st : GameState) (p : Player) : Ranked :=
  let buyInChips := buyInAmount (config st) - HOUSE_FEE_FIXED in
  let rebuysTotal := reduceSum amount (rebuys p) in
  let investedChips := buyInChips + rebuysTotal in
  let out := orZero (cashoutAmount p) in
  let performanceRatio :=
    if Qlt_le_dec 0 investedChips then out / investedChips else 0 in
  let rankingFee := out * (1 # 10) in
  let net := out - rankingFee in
  mkRanked p investedChips out performanceRatio rankingFee net.

(** The comparator handed to [sort]. *)
Definition compareRanked (a b : Ranked) : Q :=
  if Qeq_bool (performanceRatio a) (performanceRatio b)
  then out b - out a
  else performanceRatio b - performanceRatio a.

Definition rankedPlayers (st : GameState) : list Ranked :=
  sort compareRanked (map (rank st) (Ledger.validPlayers st)).

Definition getPoints (index : nat) : Q :=
  match index with
  | 0%nat => 20
  | 1%nat => 15
  | 2%nat => 10
  | _ => 5
  end.

(** Chip verification. *)
Definition totalCashoutDeclared (st : GameState) : Q :=
  fold_left (fun sum p => sum + orZero (cashoutAmount p))
    (Ledger.validPlayers st) 0.

Definition chipsDifference (st : GameState) : Q :=
  Ledger.totalChips (Ledger.calculateTotals st) - totalCashoutDeclared st.

End Settlement.

(** ** Game lifecycle: the mutation handlers *)

Module Lifecycle.

(** The one failure a handler reports: [addRebuy] alerts
    "O valor do Rebuy deve ser maior que zero." and returns. *)
Inductive Error := InvalidAmount.

Definition idIs (x : jsString) (p : Player) : bool := JsString.eqb (id p) x.

Definition rebuyIdIs (x : jsString) (r : Rebuy) : bool :=
  JsString.eqb (rebuy_id r) x.

Definition handleStartGame (amount : Q) (prev : GameState) : GameState :=
  {| isStarted := true;
     finished := false;
     config := {| buyInAmount := amount |};
     players := players prev |}.

(** [newPlayerName] is the text of the input box, [uuid] the value
    [crypto.randomUUID()] returns. *)
Definition addPlayer (newPlayerName uuid : jsString) (prev : GameState)
  : GameState :=
  if negb (JsString.truthy (JsString.trim newPlayerName)) then prev
  else
    let newPlayer :=
      {| id := uuid;
         name := JsString.trim newPlayerName;
         buyInStatus := PENDING;
         rebuys := [];
         cashoutAmount := None |} in
    withPlayers prev (players prev ++ [newPlayer]).

Definition updatePlayerStatus (x : jsString) (s : PaymentStatus)
  (prev : GameState) : GameState :=
  withPlayers prev
    (map (fun p => if idIs x p then withBuyInStatus p s else p)
       (players prev)).

(** [uuid] and [now] are what [crypto.randomUUID()] and [Date.now()]
    return. *)
Definition addRebuy (playerId : jsString) (amount : Q) (uuid : jsString)
  (now : Z) (prev : GameState) : GameState * option Error :=
  if Qlt_le_dec amount 1 then (prev, Some InvalidAmount)
  else
    let newRebuy :=
      {| rebuy_id := uuid; amount := amount; status := PENDING;
         timestamp := now |} in
    (withPlayers prev
       (map (fun p =>
               if idIs playerId p
               then withRebuys p (rebuys p ++ [newRebuy])
               else p)
          (players prev)),
     None).

Definition removeRebuy (playerId rebuyId : jsString) (prev : GameState)
  : GameState :=
  withPlayers prev
    (map (fun p =>
            if idIs playerId p
            then withRebuys p
                   (filter (fun r => negb (rebuyIdIs rebuyId r)) (rebuys p))
            else p)
       (players prev)).

Definition toggle (s : PaymentStatus) : PaymentStatus :=
  match s with PAID => PENDING | PENDING => PAID end.

Definition toggleRebuyStatus (playerId rebuyId : jsString)
  (prev : GameState) : GameState :=
  withPlayers prev
    (map (fun p =>
            if idIs playerId p
            then withRebuys p
                   (map (fun r =>
                           if rebuyIdIs rebuyId r
                           then withStatus r (toggle (status r))
                           else r)
                      (rebuys p))
            else p)
       (players prev)).

Definition removePlayer (playerId : jsString) (prev : GameState)
  : GameState :=
  withPlayers prev (filter (fun p => negb (idIs playerId p)) (players prev)).

Definition confirmResetGame (prev : GameState) : GameState :=
  let emptyState :=
    {| isStarted := false;
       finished := false;
       config := {| buyInAmount := 50 |};
       players := [] |} in
  emptyState.

Definition submitCashout (playerId : jsString) (amount : Q)
  (prev : GameState) : GameState :=
  withPlayers prev
    (map (fun p => if idIs playerId p then withCashoutAmount p amount else p)
       (players prev)).

Definition finishGame (prev : GameState) : GameState :=
  {| isStarted := isStarted prev;
     finished := true;
     config := config prev;
     players := players prev |}.

(** The command surface. *)
Inductive Command :=
| StartGame (amount : Q)
| AddPlayer (newPlayerName uuid : jsString)
| RemovePlayer (playerId : jsString)
| SetBuyInStatus (playerId : jsString) (s : PaymentStatus)
| AddRebuy (playerId : jsString) (amount : Q) (uuid : jsString) (now : Z)
| RemoveRebuy (playerId rebuyId : jsString)
| ToggleRebuyStatus (playerId rebuyId : jsString)
| SubmitCashout (playerId : jsString) (amount : Q)
| FinishGame
| ResetGame.

Definition run (c : Command) (st : GameState) : GameState * option Error :=
  match c with
  | StartGame a => (handleStartGame a st, None)
  | AddPlayer n u => (addPlayer n u st, None)
  | RemovePlayer x => (removePlayer x st, None)
  | SetBuyInStatus x s => (updatePlayerStatus x s st, None)
  | AddRebuy x a u now => addRebuy x a u now st
  | RemoveRebuy x r => (removeRebuy x r st, None)
  | ToggleRebuyStatus x r => (toggleRebuyStatus x r st, None)
  | SubmitCashout x a => (submitCashout x a st, None)
  | FinishGame => (finishGame st, None)
  | ResetGame => (confirmResetGame st, None)
  end.

(** The invariant [finished => isStarted]. *)
Definition finishedImpliesStarted (st : GameState) : Prop :=
  finished st = true -> isStarted st = true.

End Lifecycle.

(** ** Vocabulary of the statements *)

Definition isPaid (r : Rebuy) : bool := PaymentStatus_eqb (status r) PAID.

(** A state with every payment status forgotten (reset to [PENDING]): two
    states with the same image differ in payment statuses only. *)
Definition forgetRebuyStatus (r : Rebuy) : Rebuy := withStatus r PENDING.

Definition forgetPlayerStatus (p : Player) : Player :=
  {| id := id p; name := name p; buyInStatus := PENDING;
     rebuys := map forgetRebuyStatus (rebuys p);
     cashoutAmount := cashoutAmount p |}.

Definition forgetStatuses (st : GameState) : GameState :=
  withPlayers st (map forgetPlayerStatus (players st)).

(** Chips credited according to the ledger rule: buy-in less the fee of 10
    for each player, plus every rebuy in full. *)
Definition chipsCredited (st : GameState) : Q :=
  Qsum (map (fun _ : Player => buyInAmount (config st) - 10)
          (Ledger.validPlayers st))
  + Qsum (map (fun p => Qsum (map amount (rebuys p))) (Ledger.validPlayers st)).

(** The order of the ranking: a higher ratio first, and among equal ratios a
    higher declared cashout first. *)
Definition rankedBefore (a b : Settlement.Ranked) : Prop :=
  Settlement.performanceRatio b < Settlement.performanceRatio a
  \/ (Settlement.performanceRatio a == Settlement.performanceRatio b
      /\ Settlement.out b <= Settlement.out a).

(** Equal in both performance ratio and declared cashout. *)
Definition sameKey (a b : Settlement.Ranked) : bool :=
  Qeq_bool (Settlement.performanceRatio a) (Settlement.performanceRatio b)
  && Qeq_bool (Settlement.out a) (Settlement.out b).

(** Declared cashout of a player, an absent one counting as 0. *)
Definition declared (p : Player) : Q :=
  match cashoutAmount p with Some a => a | None => 0 end.

(** ** Sample states *)

Module Samples.

Definition player (i n : string) (b : PaymentStatus) (rs : list Rebuy)
  (c : option Q) : Player :=
  {| id := JsString.lit i; name := JsString.lit n; buyInStatus := b;
     rebuys := rs; cashoutAmount := c |}.

Definition rebuy (i : string) (a : Q) (s : PaymentStatus) : Rebuy :=
  {| rebuy_id := JsString.lit i; amount := a; status := s;
     timestamp := 0 |}.

Definition game (started fin : bool) (buyIn : Q) (ps : list Player)
  : GameState :=
  {| isStarted := started; finished := fin;
     config := {| buyInAmount := buyIn |}; players := ps |}.

(** Two players, 40 chips each, cashouts of 80 and 20. *)
Definition ana80 : Player := player "a" "Ana" PAID [] (Some 80).
Definition bia20 : Player := player "b" "Bia" PAID [] (Some 20).
Definition twoPlayers : GameState := game true false 50 [bia20; ana80].

(** 80 chips issued, 75 declared. *)
Definition shortBy5 : GameState :=
  game true false 50
    [player "a" "Ana" PAID [] (Some 40); player "b" "Bia" PAID [] (Some 35)].

(** One player with a paid and a pending rebuy. *)
Definition withRebuysOf30 : GameState :=
  game true false 50
    [player "a" "Ana" PENDING [rebuy "r1" 30 PAID; rebuy "r2" 30 PENDING]
       None].

(** The same game with the buy-in and both rebuys paid. *)
Definition withRebuysAllPaid : GameState :=
  game true false 50
    [player "a" "Ana" PAID [rebuy "r1" 30 PAID; rebuy "r2" 30 PAID] None].

(** A started game with one player who owns one pending rebuy. *)
Definition oneRebuy : GameState :=
  game true false 50 [player "a" "Ana" PENDING [rebuy "r1" 30 PENDING] None].

(** A player with a pending buy-in, the same after a paid rebuy, and a
    player whose name is blank. *)
Definition bia : Player := player "b" "Bia" PENDING [] None.
Definition biaRebought : Player :=
  player "b" "Bia" PENDING [rebuy "r1" 30 PAID] None.
Definition ghost : Player :=
  player "g" "   " PAID [rebuy "r0" 99 PAID] (Some 7).

(** Two players and a ghost: Ana has paid everything, Bia has paid only
    her second rebuy. *)
Definition anaPaid : Player :=
  player "a" "Ana" PAID [rebuy "r1" 20 PAID] (Some 90).
Definition biaOwes : Player :=
  player "b" "Bia" PENDING [rebuy "r2" 30 PENDING; rebuy "r3" 25 PAID] None.
Definition table : GameState := game true false 50 [anaPaid; ghost; biaOwes].

End Samples.

(** ** Figures the views compute inline *)

Module Views.

(** [getPlayer]: [gameState.players.find(p => p.id === id)]. *)
Definition getPlayer (st : GameState) (x : jsString) : option Player :=
  find (Lifecycle.idIs x) (players st).

(** The line under a player's name on the dashboard:
    [pendingCash > 0 ? `Pendente: ...` : "Pago"]. *)
Inductive CardLabel :=
| Pendente (pendingCash : Q)
| Pago.

Definition cardLabel (st : GameState) (p : Player) : CardLabel :=
  if Qlt_le_dec 0 (Ledger.pendingCash st p)
  then Pendente (Ledger.pendingCash st p)
  else Pago.


End Views.

(** ** Persistence: what the load effect makes of a stored document *)

Inductive View := SETUP | DASHBOARD | PLAYER_DETAIL | CASHOUT | RANKING.

Module Persistence.

(** [parsed.players = parsed.players.filter(p => p.name && p.name.trim() !== '')] *)
Definition sanitize (parsed : GameState) : GameState :=
  withPlayers parsed (filter Ledger.isValid (players parsed)).

(** [saved] is the parsed document, [None] when nothing is stored or the
    stored text does not parse (the state and the view then stay as they
    were initialised). *)
Definition load (saved : option GameState) : GameState * View :=
  match saved with
  | None => (INITIAL_STATE, SETUP)
  | Some parsed =>
      let parsed' := sanitize parsed in
      (parsed',
       if isStarted parsed'
       then (if finished parsed' then RANKING else DASHBOARD)
       else SETUP)
  end.

End Persistence.

(** ** The component: state hooks, screens and event handlers *)

Module Ui.

Definition View_eqb (a b : View) : bool :=
  match a, b with
  | SETUP, SETUP | DASHBOARD, DASHBOARD | PLAYER_DETAIL, PLAYER_DETAIL
  | CASHOUT, CASHOUT | RANKING, RANKING => true
  | _, _ => false
  end.

Definition selected_eqb (a b : option jsString) : bool :=
  match a, b with
  | None, None => true
  | Some x, Some y => JsString.eqb x y
  | _, _ => false
  end.

(** The [useState] cells that decide what is shown and what an event does
    (the two text inputs are arguments of the events that read them). *)
Record State := mkState {
  gameState : GameState;
  view : View;
  selectedPlayerId : option jsString;
  showResetModal : bool;
  showDeleteConfirm : bool
}.

(** Which of the four [return]s of the component renders. *)
Inductive Screen :=
| SetupScreen
| DetailScreen (selectedPlayer : Player)
| SettlementScreen
| DashboardScreen.

Definition screen (u : State) : Screen :=
  match view u with
  | SETUP => SetupScreen
  | v =>
      let selectedPlayer :=
        Views.getPlayer (gameState u)
          (match selectedPlayerId u with Some x => x | None => [] end) in
      match v, selectedPlayer with
      | PLAYER_DETAIL, Some p => DetailScreen p
      | RANKING, _ | CASHOUT, _ => SettlementScreen
      | _, _ => DashboardScreen
      end
  end.

(** The controls.  [Number(...)] of an input box, [crypto.randomUUID()] and
    [Date.now()] come with the event. *)
Inductive Event :=
| ClickStart (amount : Q)
| ClickBack
| ClickBuyInStatus
| ClickAddRebuy (amount : Q) (uuid : jsString) (now : Z)
| ClickRebuyStatus (rebuyId : jsString)
| ClickRemoveRebuy (rebuyId : jsString)
| ClickDelete
| ClickCancelDelete
| ClickConfirmDelete
| ClickEndGame
| ChangeCashout (playerId : jsString) (amount : Q)
| ClickFinish
| ClickReset
| ClickCancelReset
| ClickConfirmReset
| ClickPlayer (playerId : jsString)
| SubmitNewPlayer (newPlayerName uuid : jsString).

Definition setGame (u : State) (g : GameState) : State :=
  mkState g (view u) (selectedPlayerId u) (showResetModal u)
    (showDeleteConfirm u).

Definition setView (u : State) (v : View) : State :=
  mkState (gameState u) v (selectedPlayerId u) (showResetModal u)
    (showDeleteConfirm u).

Definition setShowResetModal (u : State) (b : bool) : State :=
  mkState (gameState u) (view u) (selectedPlayerId u) b (showDeleteConfirm u).

Definition setShowDeleteConfirm (u : State) (b : bool) : State :=
  mkState (gameState u) (view u) (selectedPlayerId u) (showResetModal u) b.

(** The reset modal, rendered by the settlement and dashboard screens. *)
Definition modal (u : State) (e : Event) : option State :=
  match e with
  | ClickCancelReset =>
      if showResetModal u then Some (setShowResetModal u false) else None
  | ClickConfirmReset =>
      if showResetModal u
      then Some (mkState (Lifecycle.confirmResetGame (gameState u)) SETUP
                   None false (showDeleteConfirm u))
      else None
  | _ => None
  end.

(** What the handler wired to a control does; [None] when the screen does
    not render the control. *)
Definition handle (u : State) (e : Event) : option State :=
  let g := gameState u in
  match screen u with
  | SetupScreen =>
      match e with
      | ClickStart amount =>
          Some (setView (setGame u (Lifecycle.handleStartGame amount g))
                  DASHBOARD)
      | _ => None
      end
  | DetailScreen selectedPlayer =>
      match e with
      | ClickBack => Some (setView u DASHBOARD)
      | ClickBuyInStatus =>
          Some (setGame u
                  (Lifecycle.updatePlayerStatus (id selectedPlayer)
                     (match buyInStatus selectedPlayer with
                      | PAID => PENDING
                      | PENDING => PAID
                      end) g))
      | ClickAddRebuy amount uuid now =>
          Some (setGame u
                  (fst (Lifecycle.addRebuy (id selectedPlayer) amount uuid
                          now g)))
      | ClickRebuyStatus rebuyId =>
          if existsb (Lifecycle.rebuyIdIs rebuyId) (rebuys selectedPlayer)
          then Some (setGame u
                       (Lifecycle.toggleRebuyStatus (id selectedPlayer)
                          rebuyId g))
          else None
      | ClickRemoveRebuy rebuyId =>
          if existsb (Lifecycle.rebuyIdIs rebuyId) (rebuys selectedPlayer)
          then Some (setGame u
                       (Lifecycle.removeRebuy (id selectedPlayer) rebuyId g))
          else None
      | ClickDelete =>
          if showDeleteConfirm u then None
          else Some (setShowDeleteConfirm u true)
      | ClickCancelDelete =>
          if showDeleteConfirm u then Some (setShowDeleteConfirm u false)
          else None
      | ClickConfirmDelete =>
          if showDeleteConfirm u
          then Some (mkState (Lifecycle.removePlayer (id selectedPlayer) g)
                       DASHBOARD None (showResetModal u) false)
          else None
      | _ => None
      end
  | SettlementScreen =>
      match e with
      | ClickBack =>
          if View_eqb (view u) CASHOUT then Some (setView u DASHBOARD)
          else None
      | ClickFinish =>
          if View_eqb (view u) CASHOUT
          then Some (setView (setGame u (Lifecycle.finishGame g)) RANKING)
          else None
      | ChangeCashout playerId amount =>
          if View_eqb (view u) CASHOUT
             && existsb (Lifecycle.idIs playerId) (Ledger.validPlayers g)
          then Some (setGame u (Lifecycle.submitCashout playerId amount g))
          else None
      | ClickReset =>
          if View_eqb (view u) RANKING then Some (setShowResetModal u true)
          else None
      | _ => modal u e
      end
  | DashboardScreen =>
      match e with
      | ClickReset => Some (setShowResetModal u true)
      | ClickEndGame => Some (setView u CASHOUT)
      | ClickPlayer playerId =>
          if existsb (Lifecycle.idIs playerId) (Ledger.validPlayers g)
          then Some (mkState g PLAYER_DETAIL (Some playerId)
                       (showResetModal u) (showDeleteConfirm u))
          else None
      | SubmitNewPlayer newPlayerName uuid =>
          Some (setGame u (Lifecycle.addPlayer newPlayerName uuid g))
      | _ => modal u e
      end
  end.

(** [useEffect(() => setShowDeleteConfirm(false), [selectedPlayerId, view])] *)
Definition resetDeleteConfirm (before after : State) : State :=
  if View_eqb (view before) (view after)
     && selected_eqb (selectedPlayerId before) (selectedPlayerId after)
  then after
  else setShowDeleteConfirm after false.

Definition step (u : State) (e : Event) : option State :=
  option_map (resetDeleteConfirm u) (handle u e).

(** The component after its load effect; [saved] as for
    [Persistence.load]. *)
Definition mount (saved : option GameState) : State :=
  mkState (fst (Persistence.load saved)) (snd (Persistence.load saved))
    None false false.

(** The states the component goes through: it first mounts with nothing
    stored; every change of [gameState] is written to the store, so a later
    mount finds the [gameState] of the moment the page was left. *)
Inductive reachable : State -> Prop :=
| reach_first : reachable (mount None)
| reach_step u e u' : reachable u -> step u e = Some u' -> reachable u'
| reach_reload u : reachable u -> reachable (mount (Some (gameState u))).

End Ui.

(** ** More vocabulary *)



(** A ranking entry with the payment statuses of its player forgotten. *)
Definition forgetRanked (r : Settlement.Ranked) : Settlement.Ranked :=
  Settlement.mkRanked (forgetPlayerStatus (Settlement.player r))
    (Settlement.investedChips r) (Settlement.out r)
    (Settlement.performanceRatio r) (Settlement.rankingFee r)
    (Settlement.net r).

(** What holds of every state the component goes through. *)
Definition uiInvariant (u : Ui.State) : Prop :=
  (Ui.view u <> SETUP -> isStarted (Ui.gameState u) = true)
  /\ (finished (Ui.gameState u) = true -> Ui.view u = RANKING)
  /\ (Ui.showDeleteConfirm u = true -> Ui.view u = PLAYER_DETAIL)
  /\ Forall (fun p => Ledger.isValid p = true) (players (Ui.gameState u)).

(** States of a short session: mounted with nothing stored, started with a
    buy-in of 50, on the cashout page, finished. *)
Module UiSamples.

Definition fresh : Ui.State := Ui.mount None.

Definition started : Ui.State :=
  Ui.mkState (Lifecycle.handleStartGame 50 INITIAL_STATE) DASHBOARD None
    false false.

Definition cashingOut : Ui.State :=
  Ui.mkState (Lifecycle.handleStartGame 50 INITIAL_STATE) CASHOUT None
    false false.

Definition done : Ui.State :=
  Ui.mkState
    (Lifecycle.finishGame (Lifecycle.handleStartGame 50 INITIAL_STATE))
    RANKING None false false.

Definition doneAskingReset : Ui.State :=
  Ui.mkState
    (Lifecycle.finishGame (Lifecycle.handleStartGame 50 INITIAL_STATE))
    RANKING None true false.

(** A session with one player: added, opened, and asked to be deleted. *)
Definition ana : Player := mkPlayer (JsString.lit "a") (JsString.lit "Ana")
                             PENDING [] None.

Definition withAna : Ui.State :=
  Ui.mkState (withPlayers (Lifecycle.handleStartGame 50 INITIAL_STATE) [ana])
    DASHBOARD None false false.

Definition onAna : Ui.State :=
  Ui.mkState (withPlayers (Lifecycle.handleStartGame 50 INITIAL_STATE) [ana])
    PLAYER_DETAIL (Some (JsString.lit "a")) false false.

Definition deletingAna : Ui.State :=
  Ui.mkState (withPlayers (Lifecycle.handleStartGame 50 INITIAL_STATE) [ana])
    PLAYER_DETAIL (Some (JsString.lit "a")) false true.

Definition anaDeleted : Ui.State :=
  Ui.mkState (withPlayers (Lifecycle.handleStartGame 50 INITIAL_STATE) [])
    DASHBOARD None false false.

End UiSamples.

(** A player who owes money. *)
Definition owes (st : GameState) (p : Player) : bool :=
  if Qlt_le_dec 0 (Ledger.pendingCash st p) then true else false.

Definition debtorOf (st : GameState) (p : Player) : Ledger.Debtor :=
  {| Ledger.debtor_id := id p;
     Ledger.debtor_name := name p;
     Ledger.pending := Ledger.pendingCash st p |}.

(** ** The ledger and the chip audit in binary64

    The figures the views show are IEEE-754 doubles.  The state keeps each
    number as it was entered, a decimal; [num] is the double that
    [Number(text)] makes of it, and the functions below repeat the source's
    additions, subtractions and comparisons on doubles, in the source's
    order. *)

Module Double.
Import PrimFloat.
Local Open Scope float_scope.

(** The double of a positive integer (exact below 2^53). *)
Fixpoint ofPos (p : positive) : float :=
  match p with
  | xH => 1
  | xO p' => 2 * ofPos p'
  | xI p' => 2 * ofPos p' + 1
  end.

Definition ofZ (z : Z) : float :=
  match z with
  | Z0 => 0
  | Zpos p => ofPos p
  | Zneg p => - ofPos p
  end.

(** [Number(text)] for the decimal [q]: the correctly rounded quotient of
    numerator and denominator, which is the double nearest to [q] when both
    are below 2^53 (every decimal of up to 15 significant digits). *)
Definition num (q : Q) : float := ofZ (Qnum q) / ofPos (Qden q).

(** The rational a finite double stands for (0 for infinities and NaN). *)
Definition exactly (x : float) : Q :=
  match FloatOps.Prim2SF x with
  | SpecFloat.S754_finite s m e =>
      let v :=
        match e with
        | Z0 => inject_Z (Zpos m)
        | Zpos k => inject_Z (Zpos (m * 2 ^ k))
        | Zneg k => Qmake (Zpos m) (2 ^ k)
        end in
      if s then Qopp v else v
  | _ => 0%Q
  end.

Definition HOUSE_FEE_FIXED : float := 10.

Record Totals := mkTotals {
  totalBuyIns : float;
  totalRebuys : float;
  totalFees : float;
  totalChips : float;
  totalPaid : float;
  totalPending : float
}.

Definition zeroTotals : Totals := mkTotals 0 0 0 0 0 0.

(** Body of the inner [p.rebuys.forEach]. *)
Definition rebuyStep (t : Totals) (r : Rebuy) : Totals :=
  {| totalBuyIns := totalBuyIns t;
     totalRebuys := totalRebuys t + num (amount r);
     totalFees := totalFees t;
     totalChips := totalChips t + num (amount r);
     totalPaid :=
       match status r with
       | PAID => totalPaid t + num (amount r)
       | PENDING => totalPaid t
       end;
     totalPending :=
       match status r with
       | PAID => totalPending t
       | PENDING => totalPending t + num (amount r)
       end |}.

(** Body of the outer [validPlayers.forEach]. *)
Definition playerStep (st : GameState) (t : Totals) (p : Player) : Totals :=
  let buyIn := num (buyInAmount (config st)) in
  let buyInChips := buyIn - HOUSE_FEE_FIXED in
  let t1 :=
    {| totalBuyIns := totalBuyIns t + buyIn;
       totalRebuys := totalRebuys t;
       totalFees := totalFees t + HOUSE_FEE_FIXED;
       totalChips := totalChips t + buyInChips;
       totalPaid :=
         match buyInStatus p with
         | PAID => totalPaid t + buyIn
         | PENDING => totalPaid t
         end;
       totalPending :=
         match buyInStatus p with
         | PAID => totalPending t
         | PENDING => totalPending t + buyIn
         end |} in
  fold_left rebuyStep (rebuys p) t1.

Definition calculateTotals (st : GameState) : Totals :=
  fold_left (playerStep st) (Ledger.validPlayers st) zeroTotals.

Definition paidCash (st : GameState) (p : Player) : float :=
  (match buyInStatus p with
   | PAID => num (buyInAmount (config st))
   | PENDING => 0
   end)
  + fold_left
      (fun sum r =>
         match status r with
         | PAID => sum + num (amount r)
         | PENDING => sum
         end)
      (rebuys p) 0.

Definition totalCostCash (st : GameState) (p : Player) : float :=
  num (buyInAmount (config st))
  + fold_left (fun sum r => sum + num (amount r)) (rebuys p) 0.

Definition pendingCash (st : GameState) (p : Player) : float :=
  totalCostCash st p - paidCash st p.

(** [p.cashoutAmount || 0]: an absent amount, a zero and NaN give 0. *)
Definition orZero (a : option Q) : float :=
  match a with
  | Some q => if (num q =? 0) || negb (num q =? num q) then 0 else num q
  | None => 0
  end.

Definition totalCashoutDeclared (st : GameState) : float :=
  fold_left (fun sum p => sum + orZero (cashoutAmount p))
    (Ledger.validPlayers st) 0.

Definition chipsDifference (st : GameState) : float :=
  totalChips (calculateTotals st) - totalCashoutDeclared st.

(** [Math.abs(chipsDifference) < 0.1] *)
Definition isBalanced (st : GameState) : bool :=
  abs (chipsDifference st) <? num (1 # 10).

(** What the verification card shows. *)
Inductive AuditReport :=
| Balanced                     (* "Conferencia OK" *)
| ChipsMissing (d : float)     (* "Faltam ..." *)
| ChipsExcess (d : float).     (* "Fichas a mais ..." *)

Definition chipAudit (st : GameState) : AuditReport :=
  if isBalanced st then Balanced
  else if 0 <? chipsDifference st
       then ChipsMissing (chipsDifference st)
       else ChipsExcess (abs (chipsDifference st)).

(** Vocabulary: a sum taken from the left, starting at 0, and the chips
    credited one after the other: for each non-ghost player in list order
    the buy-in less the fee, then that player's rebuys. *)
Definition sumL (l : list float) : float := fold_left add l 0.

Definition amountOf (r : Rebuy) : float := num (amount r).

Definition chipContributions (st : GameState) : list float :=
  flat_map
    (fun p => (num (buyInAmount (config st)) - 10) :: map amountOf (rebuys p))
    (Ledger.validPlayers st).

End Double.

Module DoubleSamples.

(** States with amounts that are not doubles. *)
Definition oneTenth : Q := 1 # 10.

(** Buy-in 50, one player with rebuys of 1.1 and 2.2. *)
Definition rebuys_1_1_and_2_2 : GameState :=
  Samples.game true false 50
    [Samples.player "a" "Ana" PENDING
       [Samples.rebuy "r1" (11 # 10) PAID; Samples.rebuy "r2" (22 # 10) PENDING]
       None].

(** Buy-in 50 pending, a paid and a pending rebuy of 20.1. *)
Definition anaWith_20_1 : Player :=
  Samples.player "a" "Ana" PENDING
    [Samples.rebuy "r1" (201 # 10) PAID; Samples.rebuy "r2" (201 # 10) PENDING]
    None.

Definition rebuys_of_20_1 : GameState :=
  Samples.game true false 50 [anaWith_20_1].

(** 80 chips issued, cashouts of 80 and 0.1 declared. *)
Definition over_by_one_tenth : GameState :=
  Samples.game true false 50
    [Samples.player "a" "Ana" PAID [] (Some 80);
     Samples.player "b" "Bia" PAID [] (Some oneTenth)].

End DoubleSamples.

(** * Properties *)

(** ** Strings *)

Module JsStringFacts.
Import JsString.

Lemma eqb_eq (a b : t) : eqb a b = true <-> a = b.
Proof.
  unfold eqb. destruct (list_eq_dec N.eq_dec a b); split; congruence.
Qed.

Lemma eqb_neq (a b : t) : eqb a b = false <-> a <> b.
Proof.
  unfold eqb. destruct (list_eq_dec N.eq_dec a b); split; congruence.
Qed.

Lemma eqb_refl (a : t) : eqb a a = true.
Proof. now apply eqb_eq. Qed.

(** [trimStart] removes a prefix of white space and stops at the first
    code unit that is not. *)
Lemma trimStart_split (s : t) :
  exists pre,
    s = pre ++ trimStart s
    /\ forallb isWhiteSpace pre = true
    /\ (forall c s', trimStart s = c :: s' -> isWhiteSpace c = false).
Proof.
  induction s as [|c s IH]; simpl.
  - exists []. simpl. repeat split; intros; discriminate.
  - destruct (isWhiteSpace c) eqn:E.
    + destruct IH as (pre & Hs & Hws & Hhd).
      exists (c :: pre). simpl. rewrite E, Hws. repeat split; auto.
      now rewrite <- Hs.
    + exists []. simpl. repeat split; auto.
      intros c' s' H. now inversion H; subst.
Qed.

Lemma trimEnd_split (s : t) :
  exists post,
    s = trimEnd s ++ post
    /\ forallb isWhiteSpace post = true
    /\ (forall c s', trimEnd s = s' ++ [c] -> isWhiteSpace c = false).
Proof.
  unfold trimEnd.
  destruct (trimStart_split (rev s)) as (pre & Hs & Hws & Hhd).
  exists (rev pre). repeat split.
  - rewrite <- rev_app_distr, <- Hs. now rewrite rev_involutive.
  - rewrite forallb_forall in *. intros x Hx. apply Hws.
    now apply in_rev.
  - intros c s' H. apply (Hhd c (rev s')).
    apply (f_equal (@rev _)) in H. rewrite rev_involutive in H.
    rewrite H, rev_app_distr. reflexivity.
Qed.

Lemma trimEnd_keeps_head (c : codeUnit) (s : t) :
  isWhiteSpace c = false -> exists s', trimEnd (c :: s) = c :: s'.
Proof.
  intros Hc.
  destruct (trimEnd_split (c :: s)) as (post & Hs & Hws & _).
  destruct (trimEnd (c :: s)) as [|d r] eqn:E.
  - simpl in Hs. subst post. simpl in Hws. now rewrite Hc in Hws.
  - simpl in Hs. inversion Hs; subst. now exists r.
Qed.

(** What [trim] returns: the input is white space, then the result, then
    white space, and the result neither starts nor ends with white
    space. *)
Theorem trim_spec (s : t) :
  exists pre post,
    s = pre ++ trim s ++ post
    /\ forallb isWhiteSpace pre = true
    /\ forallb isWhiteSpace post = true
    /\ (forall c s', trim s = c :: s' -> isWhiteSpace c = false)
    /\ (forall c s', trim s = s' ++ [c] -> isWhiteSpace c = false).
Proof.
  unfold trim.
  destruct (trimStart_split s) as (pre & Hs & Hpre & Hhd).
  destruct (trimEnd_split (trimStart s)) as (post & Hs' & Hpost & Hlast).
  exists pre, post. repeat split; auto.
  - now rewrite <- Hs'.
  - intros c s' H.
    destruct (trimStart s) as [|d r] eqn:E.
    + discriminate H.
    + pose proof (Hhd d r eq_refl) as Hd.
      destruct (trimEnd_keeps_head d r Hd) as (r' & Hr').
      rewrite Hr' in H. inversion H; subst. exact Hd.
Qed.

End JsStringFacts.

(** ** Sums *)



(** ** Ledger *)

Module LedgerFacts.
Import Ledger.

Lemma rebuyStep_chips (rs : list Rebuy) (t : Totals) :
  totalChips (fold_left rebuyStep rs t)
  == totalChips t + Qsum (map amount rs).
Proof.
  revert t. induction rs as [|r rs IH]; intros t; simpl.
  - ring.
  - rewrite IH. simpl. ring.
Qed.

Lemma playerStep_chips (st : GameState) (t : Totals) (p : Player) :
  totalChips (playerStep st t p)
  == totalChips t + (buyInAmount (config st) - 10)
     + Qsum (map amount (rebuys p)).
Proof.
  unfold playerStep. rewrite rebuyStep_chips. simpl.
  unfold HOUSE_FEE_FIXED. ring.
Qed.

Lemma players_chips (st : GameState) (ps : list Player) (t : Totals) :
  totalChips (fold_left (playerStep st) ps t)
  == totalChips t
     + (Qsum (map (fun _ : Player => buyInAmount (config st) - 10) ps)
        + Qsum (map (fun p => Qsum (map amount (rebuys p))) ps)).
Proof.
  revert t. induction ps as [|p ps IH]; intros t; simpl.
  - ring.
  - rewrite IH, playerStep_chips. ring.
Qed.

Lemma isValid_forget (p : Player) :
  isValid (forgetPlayerStatus p) = isValid p.
Proof. reflexivity. Qed.

Lemma validPlayers_forget (st : GameState) :
  validPlayers (forgetStatuses st)
  = map forgetPlayerStatus (validPlayers st).
Proof.
  unfold validPlayers, forgetStatuses. simpl.
  induction (players st) as [|p ps IH]; simpl; [reflexivity|].
  rewrite isValid_forget. destruct (isValid p); simpl; now rewrite IH.
Qed.

Lemma chipsCredited_forget (st : GameState) :
  chipsCredited (forgetStatuses st) = chipsCredited st.
Proof.
  unfold chipsCredited. rewrite validPlayers_forget, !map_map.
  simpl. f_equal.
  f_equal. apply map_ext. intros p. simpl.
  rewrite map_map. reflexivity.
Qed.

Lemma totalChips_chipsCredited (st : GameState) :
  totalChips (calculateTotals st) == chipsCredited st.
Proof.
  unfold calculateTotals, chipsCredited.
  rewrite players_chips. simpl. ring.
Qed.


End LedgerFacts.

(** ** Sorting *)

Section ArraySortFacts.

Variable A : Type.
Variable comparefn : A -> A -> Q.

Lemma insert_perm (x : A) (l : list A) :
  Permutation (insert comparefn x l) (x :: l).
Proof.
  induction l as [|y l IH]; simpl; [reflexivity|].
  destruct (Qlt_le_dec 0 (comparefn x y)); [|reflexivity].
  rewrite IH. apply perm_swap.
Qed.

Lemma sort_perm (l : list A) : Permutation (sort comparefn l) l.
Proof.
  induction l as [|x l IH]; simpl; [reflexivity|].
  rewrite insert_perm. now constructor.
Qed.

(** A consistent comparator. *)
Hypothesis comparefn_total :
  forall x y, 0 < comparefn x y -> comparefn y x <= 0.
Hypothesis comparefn_trans :
  forall x y z,
    comparefn x y <= 0 -> comparefn y z <= 0 -> comparefn x z <= 0.

Lemma insert_sorted (x : A) (l : list A) :
  StronglySorted (mayPrecede comparefn) l ->
  StronglySorted (mayPrecede comparefn) (insert comparefn x l).
Proof.
  induction 1 as [|y l Hs IH Hy]; simpl.
  - repeat constructor.
  - destruct (Qlt_le_dec 0 (comparefn x y)) as [Hgt|Hle].
    + constructor; [exact IH|].
      apply (Permutation_Forall (Permutation_sym (insert_perm x l))).
      constructor; [now apply comparefn_total | exact Hy].
    + constructor; [now constructor|].
      constructor; [exact Hle|].
      apply (Forall_impl _ (fun z => comparefn_trans x y z Hle) Hy).
Qed.

Lemma sort_sorted (l : list A) :
  StronglySorted (mayPrecede comparefn) (sort comparefn l).
Proof.
  induction l as [|x l IH]; simpl; [constructor|].
  now apply insert_sorted.
Qed.

(** Stability: the elements of a class of tied elements keep their
    order. *)
Section Stability.

Variable tied : A -> bool.
Hypothesis tied_class :
  forall x y, tied x = true -> tied y = true -> comparefn x y <= 0.

Lemma insert_filter (x : A) (l : list A) :
  filter tied (insert comparefn x l) = filter tied (x :: l).
Proof.
  induction l as [|y l IH]; simpl; [reflexivity|].
  destruct (Qlt_le_dec 0 (comparefn x y)) as [Hgt|Hle]; [|reflexivity].
  simpl. rewrite IH. simpl.
  destruct (tied x) eqn:Ex, (tied y) eqn:Ey; try reflexivity.
  exfalso. apply (Qlt_not_le _ _ Hgt). now apply tied_class.
Qed.

Lemma sort_filter (l : list A) :
  filter tied (sort comparefn l) = filter tied l.
Proof.
  induction l as [|x l IH]; simpl; [reflexivity|].
  rewrite insert_filter. simpl. now rewrite IH.
Qed.

End Stability.

(** The result is determined: a list that is in comparator order and
    keeps each class of tied elements as it was is the sorted list. *)
Section Uniqueness.

Variable sameKey : A -> A -> bool.
Hypothesis sameKey_refl : forall x, sameKey x x = true.
Hypothesis sameKey_antisym :
  forall x y,
    comparefn x y <= 0 -> comparefn y x <= 0 -> sameKey x y = true.

Lemma in_filter_self (x : A) (l l' : list A) :
  In x l -> filter (sameKey x) l = filter (sameKey x) l' -> In x l'.
Proof.
  intros Hin E.
  assert (H : In x (filter (sameKey x) l))
    by (apply filter_In; auto).
  rewrite E in H. now apply filter_In in H.
Qed.

Lemma sorted_stable_unique (l1 l2 : list A) :
  StronglySorted (mayPrecede comparefn) l1 ->
  StronglySorted (mayPrecede comparefn) l2 ->
  (forall k, filter (sameKey k) l1 = filter (sameKey k) l2) ->
  l1 = l2.
Proof.
  intros H1. revert l2.
  induction H1 as [|a l1 Hs1 IH Ha]; intros l2 H2 E.
  - destruct l2 as [|b l2]; [reflexivity|].
    specialize (E b). simpl in E. now rewrite sameKey_refl in E.
  - destruct H2 as [|b l2 Hs2 Hb].
    + specialize (E a). simpl in E. now rewrite sameKey_refl in E.
    + assert (Hab : sameKey a b = true).
      { assert (Hb1 : In b (a :: l1)).
        { apply (in_filter_self b (b :: l2)); [now left|].
          symmetry. apply E. }
        assert (Ha2 : In a (b :: l2)).
        { apply (in_filter_self a (a :: l1)); [now left|]. apply E. }
        destruct Hb1 as [->|Hb1]; [apply sameKey_refl|].
        destruct Ha2 as [<-|Ha2]; [apply sameKey_refl|].
        rewrite Forall_forall in Ha, Hb.
        apply sameKey_antisym; [now apply Ha | now apply Hb]. }
      assert (a = b).
      { pose proof (E a) as Ea. simpl in Ea.
        rewrite sameKey_refl, Hab in Ea. congruence. }
      subst b. f_equal. apply IH; [exact Hs2|].
      intros k. specialize (E k). simpl in E.
      destruct (sameKey k a); congruence.
Qed.

End Uniqueness.

End ArraySortFacts.

(** ** Settlement *)

Module SettlementFacts.
Import Settlement.

Lemma compareRanked_le (a b : Ranked) :
  compareRanked a b <= 0 <-> rankedBefore a b.
Proof.
  unfold compareRanked, rankedBefore.
  destruct (Qeq_bool (performanceRatio a) (performanceRatio b)) eqn:E.
  - apply Qeq_bool_iff in E. split.
    + intros H. right. split; [exact E|lra].
    + intros [H|[_ H]]; lra.
  - apply Qeq_bool_neq in E. split.
    + intros H. left.
      destruct (Qlt_le_dec (performanceRatio b) (performanceRatio a))
        as [Hlt|Hle]; [exact Hlt|].
      exfalso. apply E. lra.
    + intros [H|[H _]]; [lra|contradiction].
Qed.

Lemma compareRanked_total (x y : Ranked) :
  0 < compareRanked x y -> compareRanked y x <= 0.
Proof.
  unfold compareRanked.
  destruct (Qeq_bool (performanceRatio x) (performanceRatio y)) eqn:E.
  - apply Qeq_bool_iff in E.
    assert (E' : Qeq_bool (performanceRatio y) (performanceRatio x) = true)
      by (apply Qeq_bool_iff; now symmetry).
    rewrite E'. lra.
  - assert (E' : Qeq_bool (performanceRatio y) (performanceRatio x) = false).
    { destruct (Qeq_bool (performanceRatio y) (performanceRatio x)) eqn:F;
        [|reflexivity].
      apply Qeq_bool_iff in F. apply Qeq_bool_neq in E.
      exfalso. apply E. now symmetry. }
    rewrite E'. lra.
Qed.

Lemma compareRanked_trans (x y z : Ranked) :
  compareRanked x y <= 0 -> compareRanked y z <= 0 ->
  compareRanked x z <= 0.
Proof.
  rewrite !compareRanked_le. unfold rankedBefore.
  intros [H1|[H1 H1']] [H2|[H2 H2']].
  - left. lra.
  - left. lra.
  - left. lra.
  - right. split; lra.
Qed.

Lemma sameKey_refl (x : Ranked) : sameKey x x = true.
Proof.
  unfold sameKey. apply andb_true_iff.
  split; apply Qeq_bool_iff; reflexivity.
Qed.

Lemma sameKey_antisym (x y : Ranked) :
  compareRanked x y <= 0 -> compareRanked y x <= 0 -> sameKey x y = true.
Proof.
  rewrite !compareRanked_le. unfold rankedBefore, sameKey.
  intros H1 H2. apply andb_true_iff.
  split; apply Qeq_bool_iff; destruct H1 as [H1|[H1 H1']];
    destruct H2 as [H2|[H2 H2']]; lra.
Qed.

Lemma sameKey_tied (k x y : Ranked) :
  sameKey k x = true -> sameKey k y = true -> compareRanked x y <= 0.
Proof.
  unfold sameKey. rewrite !andb_true_iff, !Qeq_bool_iff.
  intros [H1 H1'] [H2 H2']. apply compareRanked_le. right. split; lra.
Qed.

Lemma StronglySorted_weaken {A} (R S : A -> A -> Prop) (l : list A) :
  (forall x y, R x y -> S x y) -> StronglySorted R l -> StronglySorted S l.
Proof.
  intros HRS. induction 1 as [|x l Hs IH Hx]; constructor; auto.
  apply (Forall_impl _ (HRS x) Hx).
Qed.

Lemma sort_rankedBefore (l : list Ranked) :
  StronglySorted rankedBefore (sort compareRanked l).
Proof.
  apply (StronglySorted_weaken (mayPrecede compareRanked)).
  - intros a b H. now apply compareRanked_le.
  - apply (sort_sorted Ranked compareRanked
             compareRanked_total compareRanked_trans).
Qed.

(** C2.  The ranking lists the non-ghost players (each with its derived
    figures) in descending order of [performanceRatio], equal ratios in
    descending order of [out], and entries equal in both in the order the
    players have in the player list. *)
Theorem rankedPlayers_sorted_stable (st : GameState) :
  Permutation (rankedPlayers st) (map (rank st) (Ledger.validPlayers st))
  /\ StronglySorted rankedBefore (rankedPlayers st)
  /\ forall k,
       filter (sameKey k) (rankedPlayers st)
       = filter (sameKey k) (map (rank st) (Ledger.validPlayers st)).
Proof.
  unfold rankedPlayers. split; [apply sort_perm|]. split.
  - apply sort_rankedBefore.
  - intros k. apply sort_filter. apply sameKey_tied.
Qed.

(** The ranking is the only list in that order that keeps tied entries as
    they were, so it does not depend on the algorithm behind [sort]. *)
Theorem rankedPlayers_unique (st : GameState) (l : list Ranked) :
  StronglySorted rankedBefore l ->
  (forall k,
     filter (sameKey k) l
     = filter (sameKey k) (map (rank st) (Ledger.validPlayers st))) ->
  l = rankedPlayers st.
Proof.
  intros Hs Hf.
  apply (sorted_stable_unique Ranked compareRanked sameKey
           sameKey_refl sameKey_antisym).
  - apply (StronglySorted_weaken rankedBefore); [|exact Hs].
    intros a b H. now apply compareRanked_le.
  - apply (sort_sorted Ranked compareRanked
             compareRanked_total compareRanked_trans).
  - intros k. rewrite Hf. symmetry.
    apply sort_filter. apply sameKey_tied.
Qed.

Lemma orZero_declared (p : Player) :
  orZero (cashoutAmount p) == declared p.
Proof.
  unfold orZero, declared. destruct (cashoutAmount p) as [q|]; [|reflexivity].
  destruct (Qeq_bool q 0) eqn:E; [|reflexivity].
  apply Qeq_bool_iff in E. now symmetry.
Qed.

Lemma declared_fold (ps : list Player) (a : Q) :
  fold_left (fun sum p => sum + orZero (cashoutAmount p)) ps a
  == a + Qsum (map declared ps).
Proof.
  revert a. induction ps as [|p ps IH]; intros a; simpl.
  - ring.
  - rewrite IH, orZero_declared. ring.
Qed.

Lemma totalCashoutDeclared_sum (st : GameState) :
  totalCashoutDeclared st == Qsum (map declared (Ledger.validPlayers st)).
Proof.
  unfold totalCashoutDeclared. rewrite declared_fold. ring.
Qed.

Lemma divide_nonzero (a b : Q) : ~ b == 0 -> divide a b = Some (a / b).
Proof.
  intros H. unfold divide. destruct (Qeq_bool b 0) eqn:E; [|reflexivity].
  apply Qeq_bool_iff in E. contradiction.
Qed.

(** C7.  The ratio of a ranking entry is [out / investedChips] when
    [investedChips > 0] and 0 otherwise; the division is reached with a
    positive divisor only, so for every value of [investedChips], zero
    included, the guarded expression yields a number. *)
Theorem performanceRatio_guarded (st : GameState) (p : Player) :
  let r := rank st p in
  (0 < investedChips r -> performanceRatio r = out r / investedChips r)
  /\ (investedChips r <= 0 -> performanceRatio r = 0)
  /\ performanceRatioOf (out r) (investedChips r)
     = Some (performanceRatio r)
  /\ forall o i : Q, exists q, performanceRatioOf o i = Some q.
Proof.
  assert (T : forall o i : Q,
             performanceRatioOf o i
             = Some (if Qlt_le_dec 0 i then o / i else 0)).
  { intros o i. unfold performanceRatioOf.
    destruct (Qlt_le_dec 0 i) as [H|H]; [|reflexivity].
    apply divide_nonzero. intros E. rewrite E in H.
    exact (Qlt_irrefl 0 H). }
  simpl. repeat split.
  - intros H. destruct (Qlt_le_dec 0 _) as [_|H']; [reflexivity|].
    exfalso. apply (Qlt_not_le _ _ H H').
  - intros H. destruct (Qlt_le_dec 0 _) as [H'|_]; [|reflexivity].
    exfalso. apply (Qlt_not_le _ _ H' H).
  - apply T.
  - intros o i. eexists. apply T.
Qed.

Lemma performanceRatio_guarded_witness :
  0 < investedChips (rank Samples.twoPlayers Samples.ana80)
  /\ performanceRatio (rank Samples.twoPlayers Samples.ana80)
     = out (rank Samples.twoPlayers Samples.ana80)
       / investedChips (rank Samples.twoPlayers Samples.ana80).
Proof.
  split; [reflexivity|].
  apply (proj1 (performanceRatio_guarded Samples.twoPlayers Samples.ana80)).
  reflexivity.
Defined.

End SettlementFacts.

(** ** Lifecycle *)

Module LifecycleFacts.
Import Lifecycle.

Lemma withPlayers_same (st : GameState) : withPlayers st (players st) = st.
Proof. now destruct st. Qed.

Lemma withRebuys_same (p : Player) : withRebuys p (rebuys p) = p.
Proof. now destruct p. Qed.

Lemma map_fixed {A} (f : A -> A) (l : list A) :
  (forall x, In x l -> f x = x) -> map f l = l.
Proof.
  induction l as [|x l IH]; simpl; intros H; [reflexivity|].
  rewrite H by now left. f_equal. apply IH. intros y Hy. apply H. now right.
Qed.

Lemma filter_all {A} (f : A -> bool) (l : list A) :
  (forall x, In x l -> f x = true) -> filter f l = l.
Proof.
  induction l as [|x l IH]; simpl; intros H; [reflexivity|].
  rewrite H by now left. f_equal. apply IH. intros y Hy. apply H. now right.
Qed.

Lemma idIs_false (x : jsString) (p : Player) : id p <> x -> idIs x p = false.
Proof. intros H. now apply JsStringFacts.eqb_neq. Qed.

Lemma idIs_true (x : jsString) (p : Player) : idIs x p = true <-> id p = x.
Proof. apply JsStringFacts.eqb_eq. Qed.

Lemma rebuyIdIs_false (x : jsString) (r : Rebuy) :
  rebuy_id r <> x -> rebuyIdIs x r = false.
Proof. intros H. now apply JsStringFacts.eqb_neq. Qed.

(** A handler of the form [players.map(p => p.id === x ? g(p) : p)] does
    nothing when [g] fixes every player whose id is [x]. *)
Lemma map_players_noop (x : jsString) (g : Player -> Player)
  (st : GameState) :
  (forall p, In p (players st) -> id p = x -> g p = p) ->
  withPlayers st (map (fun p => if idIs x p then g p else p) (players st))
  = st.
Proof.
  intros H. rewrite map_fixed; [apply withPlayers_same|].
  intros p Hp. destruct (idIs x p) eqn:E; [|reflexivity].
  apply H; [exact Hp|]. now apply idIs_true.
Qed.

(** C3.  [AddRebuy] with an amount below 1 reports [InvalidAmount] and
    returns the state it was given; in particular every player's rebuy
    sequence keeps its length. *)
Theorem addRebuy_rejects_below_one (st : GameState) (playerId : jsString)
  (a : Q) (uuid : jsString) (now : Z) :
  a < 1 ->
  run (AddRebuy playerId a uuid now) st = (st, Some InvalidAmount)
  /\ map (fun p => List.length (rebuys p))
       (players (fst (run (AddRebuy playerId a uuid now) st)))
     = map (fun p => List.length (rebuys p)) (players st).
Proof.
  intros H.
  assert (E : run (AddRebuy playerId a uuid now) st
              = (st, Some InvalidAmount)).
  { simpl. unfold addRebuy. destruct (Qlt_le_dec a 1) as [_|H'];
      [reflexivity|].
    exfalso. apply (Qlt_not_le _ _ H H'). }
  split; [exact E|]. now rewrite E.
Qed.

Lemma addRebuy_rejects_below_one_witness :
  run (AddRebuy (JsString.lit "a") (1 # 2) (JsString.lit "r2") 7)
    Samples.oneRebuy
  = (Samples.oneRebuy, Some InvalidAmount).
Proof.
  apply (addRebuy_rejects_below_one Samples.oneRebuy (JsString.lit "a")
           (1 # 2) (JsString.lit "r2") 7).
  reflexivity.
Defined.

(** C8.  [SetBuyInStatus], [RemovePlayer], [SubmitCashout], [RemoveRebuy]
    and [ToggleRebuyStatus] aimed at a player id that no player has, and
    the last two aimed at a rebuy id that the addressed player does not
    own, return the state unchanged and report no error. *)
Theorem unknown_id_is_noop (st : GameState) (playerId rebuyId : jsString)
  (s : PaymentStatus) (a : Q) :
  ((forall p, In p (players st) -> id p <> playerId) ->
     run (SetBuyInStatus playerId s) st = (st, None)
     /\ run (RemovePlayer playerId) st = (st, None)
     /\ run (SubmitCashout playerId a) st = (st, None)
     /\ run (RemoveRebuy playerId rebuyId) st = (st, None)
     /\ run (ToggleRebuyStatus playerId rebuyId) st = (st, None))
  /\ ((forall p, In p (players st) -> id p = playerId ->
         forall r, In r (rebuys p) -> rebuy_id r <> rebuyId) ->
      run (RemoveRebuy playerId rebuyId) st = (st, None)
      /\ run (ToggleRebuyStatus playerId rebuyId) st = (st, None)).
Proof.
  split.
  - intros H. simpl.
    unfold updatePlayerStatus, removePlayer, submitCashout, removeRebuy,
      toggleRebuyStatus.
    rewrite !map_players_noop
      by (intros p Hp E; exfalso; exact (H p Hp E)).
    rewrite filter_all; [rewrite withPlayers_same; tauto|].
    intros p Hp. now rewrite (idIs_false _ _ (H p Hp)).
  - intros H. simpl. unfold removeRebuy, toggleRebuyStatus.
    rewrite !map_players_noop; [tauto| |].
    + intros p Hp E. rewrite map_fixed; [apply withRebuys_same|].
      intros r Hr. now rewrite (rebuyIdIs_false _ _ (H p Hp E r Hr)).
    + intros p Hp E. rewrite filter_all; [apply withRebuys_same|].
      intros r Hr. now rewrite (rebuyIdIs_false _ _ (H p Hp E r Hr)).
Qed.

Lemma unknown_id_is_noop_witness :
  (run (RemovePlayer (JsString.lit "zz")) Samples.oneRebuy
   = (Samples.oneRebuy, None))
  /\ (run (ToggleRebuyStatus (JsString.lit "a") (JsString.lit "r9"))
        Samples.oneRebuy
      = (Samples.oneRebuy, None)).
Proof.
  split.
  - apply (proj1 (unknown_id_is_noop Samples.oneRebuy (JsString.lit "zz")
                    (JsString.lit "r1") PAID 0)).
    intros p [<-|[]]. discriminate.
  - apply (proj2 (unknown_id_is_noop Samples.oneRebuy (JsString.lit "a")
                    (JsString.lit "r9") PAID 0)).
    intros p [<-|[]] _ r [<-|[]]. discriminate.
Defined.

Lemma toggle_involutive (s : PaymentStatus) : toggle (toggle s) = s.
Proof. now destruct s. Qed.

Lemma toggle_differs (s : PaymentStatus) : toggle s <> s.
Proof. now destruct s. Qed.

Lemma toggleRebuy_twice (rebuyId : jsString) (rs : list Rebuy) :
  map (fun r => if rebuyIdIs rebuyId r
                then withStatus r (toggle (status r)) else r)
    (map (fun r => if rebuyIdIs rebuyId r
                   then withStatus r (toggle (status r)) else r) rs)
  = rs.
Proof.
  rewrite map_map. apply map_fixed. intros r _.
  destruct (rebuyIdIs rebuyId r) eqn:E; [|now rewrite E].
  unfold rebuyIdIs in *. simpl. rewrite E.
  destruct r as [i a s t]. unfold withStatus. simpl.
  now rewrite toggle_involutive.
Qed.

Lemma toggleRebuyStatus_twice (playerId rebuyId : jsString)
  (st : GameState) :
  toggleRebuyStatus playerId rebuyId (toggleRebuyStatus playerId rebuyId st)
  = st.
Proof.
  destruct st as [started fin cfg ps].
  unfold toggleRebuyStatus, withPlayers. simpl. f_equal.
  rewrite map_map. apply map_fixed.
  intros p _. destruct (idIs playerId p) eqn:E; [|now rewrite E].
  unfold idIs in *. simpl. rewrite E.
  rewrite toggleRebuy_twice. now destruct p.
Qed.

(** C9.  When player [playerId] owns rebuy [rebuyId], one
    [ToggleRebuyStatus] changes the status of that rebuy and a second one
    gives it its original status back; the two together restore the whole
    state. *)
Theorem toggleRebuyStatus_own_inverse (st : GameState)
  (playerId rebuyId : jsString) (i j : nat) (p : Player) (r : Rebuy) :
  nth_error (players st) i = Some p ->
  id p = playerId ->
  nth_error (rebuys p) j = Some r ->
  rebuy_id r = rebuyId ->
  let st1 := fst (run (ToggleRebuyStatus playerId rebuyId) st) in
  let st2 := fst (run (ToggleRebuyStatus playerId rebuyId) st1) in
  (exists p1 r1,
      nth_error (players st1) i = Some p1
      /\ nth_error (rebuys p1) j = Some r1
      /\ status r1 <> status r)
  /\ (exists p2 r2,
        nth_error (players st2) i = Some p2
        /\ nth_error (rebuys p2) j = Some r2
        /\ status r2 = status r)
  /\ st2 = st.
Proof.
  intros Hp Hid Hr Hrid st1 st2.
  assert (E2 : st2 = st) by apply toggleRebuyStatus_twice.
  split; [|split; [|exact E2]].
  - subst st1. simpl. rewrite nth_error_map, Hp. simpl.
    rewrite (proj2 (idIs_true playerId p) Hid).
    eexists. eexists. split; [reflexivity|]. simpl.
    rewrite nth_error_map, Hr. simpl.
    unfold rebuyIdIs. rewrite (proj2 (JsStringFacts.eqb_eq _ _) Hrid).
    split; [reflexivity|]. simpl. apply toggle_differs.
  - rewrite E2. exists p, r. auto.
Qed.

Lemma toggleRebuyStatus_own_inverse_witness :
  fst (run (ToggleRebuyStatus (JsString.lit "a") (JsString.lit "r1"))
         (fst (run (ToggleRebuyStatus (JsString.lit "a") (JsString.lit "r1"))
                 Samples.oneRebuy)))
  = Samples.oneRebuy.
Proof.
  apply (toggleRebuyStatus_own_inverse Samples.oneRebuy
           (JsString.lit "a") (JsString.lit "r1") 0 0
           (Samples.player "a" "Ana" PENDING
              [Samples.rebuy "r1" 30 PENDING] None)
           (Samples.rebuy "r1" 30 PENDING));
    reflexivity.
Defined.

(** C10.  [AddPlayer] with a name that is not blank appends one player
    whose [buyInStatus] is PENDING, whose rebuys are empty, whose
    [cashoutAmount] is absent and whose name is the input without its
    leading and trailing white space.  [AddRebuy] with an amount of at
    least 1 appends exactly one rebuy, with that amount and status
    PENDING, at the end of the rebuys of the player with the given id, and
    changes nothing else. *)
Theorem new_entities_are_pending (st : GameState) :
  (forall newPlayerName uuid,
      JsString.trim newPlayerName <> [] ->
      exists storedName pre post,
        run (AddPlayer newPlayerName uuid) st
        = (withPlayers st
             (players st
                ++ [{| id := uuid; name := storedName;
                       buyInStatus := PENDING; rebuys := [];
                       cashoutAmount := None |}]),
           None)
        /\ newPlayerName = pre ++ storedName ++ post
        /\ forallb JsString.isWhiteSpace pre = true
        /\ forallb JsString.isWhiteSpace post = true
        /\ (forall c s', storedName = c :: s' ->
                         JsString.isWhiteSpace c = false)
        /\ (forall c s', storedName = s' ++ [c] ->
                         JsString.isWhiteSpace c = false))
  /\ (forall playerId a uuid now,
        1 <= a ->
        exists ps',
          run (AddRebuy playerId a uuid now) st = (withPlayers st ps', None)
          /\ List.length ps' = List.length (players st)
          /\ forall i p,
               nth_error (players st) i = Some p ->
               (id p = playerId ->
                nth_error ps' i
                = Some (withRebuys p
                          (rebuys p
                             ++ [{| rebuy_id := uuid; amount := a;
                                    status := PENDING;
                                    timestamp := now |}])))
               /\ (id p <> playerId -> nth_error ps' i = Some p)).
Proof.
  split.
  - intros n u Hn.
    destruct (JsStringFacts.trim_spec n)
      as (pre & post & Hs & Hpre & Hpost & Hhd & Hlast).
    exists (JsString.trim n), pre, post.
    repeat split; auto.
    simpl. unfold addPlayer.
    destruct (JsString.trim n) as [|c s']; [contradiction|reflexivity].
  - intros x a u now Ha. eexists. split; [|split].
    + simpl. unfold addRebuy.
      destruct (Qlt_le_dec a 1) as [H|_]; [|reflexivity].
      exfalso. apply (Qlt_not_le _ _ H Ha).
    + apply length_map.
    + intros i p Hp. rewrite nth_error_map, Hp. simpl. split; intros H.
      * now rewrite (proj2 (idIs_true x p) H).
      * now rewrite (idIs_false x p H).
Qed.

Lemma new_entities_are_pending_witness :
  (exists storedName pre post,
      run (AddPlayer (JsString.lit "  Ana ") (JsString.lit "u1"))
        Samples.oneRebuy
      = (withPlayers Samples.oneRebuy
           (players Samples.oneRebuy
              ++ [{| id := JsString.lit "u1"; name := storedName;
                     buyInStatus := PENDING; rebuys := [];
                     cashoutAmount := None |}]),
         None)
      /\ JsString.lit "  Ana " = pre ++ storedName ++ post
      /\ forallb JsString.isWhiteSpace pre = true
      /\ forallb JsString.isWhiteSpace post = true
      /\ (forall c s', storedName = c :: s' ->
                       JsString.isWhiteSpace c = false)
      /\ (forall c s', storedName = s' ++ [c] ->
                       JsString.isWhiteSpace c = false))
  /\ (exists ps',
        run (AddRebuy (JsString.lit "a") 25 (JsString.lit "r2") 7)
          Samples.oneRebuy
        = (withPlayers Samples.oneRebuy ps', None)
        /\ List.length ps' = List.length (players Samples.oneRebuy)
        /\ forall i p,
             nth_error (players Samples.oneRebuy) i = Some p ->
             (id p = JsString.lit "a" ->
              nth_error ps' i
              = Some (withRebuys p
                        (rebuys p
                           ++ [{| rebuy_id := JsString.lit "r2";
                                  amount := 25; status := PENDING;
                                  timestamp := 7 |}])))
             /\ (id p <> JsString.lit "a" -> nth_error ps' i = Some p)).
Proof.
  split.
  - apply (proj1 (new_entities_are_pending Samples.oneRebuy)).
    vm_compute. discriminate.
  - apply (proj2 (new_entities_are_pending Samples.oneRebuy)).
    vm_compute. discriminate.
Defined.

(** [FinishGame] issued before the game was started breaks
    [finished => isStarted]. *)
Lemma finishGame_before_start :
  finishedImpliesStarted INITIAL_STATE
  /\ ~ finishedImpliesStarted (fst (run FinishGame INITIAL_STATE)).
Proof.
  split.
  - intros H. discriminate H.
  - intros H. specialize (H eq_refl). discriminate H.
Qed.

(** C5, amended.  [finished => isStarted] holds in the initial state and
    is preserved by every command, [FinishGame] being applied to a started
    game. *)
Theorem invariant_preserved (c : Command) (st : GameState) :
  finishedImpliesStarted st ->
  (c = FinishGame -> isStarted st = true) ->
  finishedImpliesStarted INITIAL_STATE
  /\ finishedImpliesStarted (fst (run c st)).
Proof.
  intros Hinv Hfin. split; [intros H; discriminate H|].
  unfold finishedImpliesStarted in *.
  destruct c as [a | n u | x | x s | x a u now | x r | x r | x a | | ];
    simpl; try exact Hinv; try reflexivity.
  - unfold addPlayer.
    destruct (negb (JsString.truthy (JsString.trim n))); exact Hinv.
  - unfold addRebuy. destruct (Qlt_le_dec a 1); exact Hinv.
  - intros _. now apply Hfin.
  - intros H. discriminate H.
Qed.

Lemma invariant_preserved_witness :
  finishedImpliesStarted INITIAL_STATE
  /\ finishedImpliesStarted (fst (run FinishGame Samples.oneRebuy)).
Proof.
  apply (invariant_preserved FinishGame Samples.oneRebuy).
  - intros H. discriminate H.
  - intros _. reflexivity.
Defined.

End LifecycleFacts.

(** ** Worked scenarios *)

Module Scenarios.
Import Samples.

(** One player, buy-in of 50 still pending. *)
Example one_pending_player :
  let st := game true false 50 [bia] in
  Ledger.investedChips st bia == 40
  /\ Ledger.totalChips (Ledger.calculateTotals st) == 40
  /\ Ledger.totalFees (Ledger.calculateTotals st) == 10
  /\ Ledger.pendingCash st bia == 50.
Proof. repeat split. Qed.

(** The same player after a paid rebuy of 30. *)
Example paid_rebuy :
  let st := game true false 50 [biaRebought] in
  Ledger.investedChips st biaRebought == 70
  /\ Ledger.paidCash st biaRebought == 30
  /\ Ledger.pendingCash st biaRebought == 50
  /\ map Ledger.pending (Ledger.debtors st) = [80 - 30].
Proof. repeat split. Qed.

(** A player whose name is blank counts nowhere. *)
Example ghost_is_ignored :
  let st := game true false 50 [ghost; bia] in
  Ledger.validPlayers st = [bia]
  /\ Ledger.totalChips (Ledger.calculateTotals st) == 40
  /\ Settlement.totalCashoutDeclared st == 0.
Proof. repeat split. Qed.

(** Cashouts of 80 and 20 on 40 chips each: the ranking puts 80 first. *)
Example ranking_of_two :
  map (fun r => (id (Settlement.player r), Settlement.out r))
    (Settlement.rankedPlayers twoPlayers)
  = [(JsString.lit "a", 80); (JsString.lit "b", 20)]
  /\ Forall2 Qeq
       (map Settlement.performanceRatio (Settlement.rankedPlayers twoPlayers))
       [2; 1 # 2]
  /\ Forall2 Qeq
       (map Settlement.rankingFee (Settlement.rankedPlayers twoPlayers))
       [8; 2]
  /\ Forall2 Qeq
       (map Settlement.net (Settlement.rankedPlayers twoPlayers))
       [72; 18]
  /\ map Settlement.getPoints [0; 1; 2; 3]%nat = [20; 15; 10; 5].
Proof. repeat split; repeat constructor. Qed.

(** Players tied in ratio and cashout stay in list order. *)
Example tie_keeps_list_order :
  map (fun r => id (Settlement.player r))
    (Settlement.rankedPlayers
       (game true false 50
          [player "x" "Xu" PAID [] (Some 40);
           player "y" "Yan" PAID [] (Some 80);
           player "z" "Zoe" PAID [] (Some 40)]))
  = [JsString.lit "y"; JsString.lit "x"; JsString.lit "z"].
Proof. reflexivity. Qed.

(** [ResetGame] returns the initial state whatever the state was. *)
Example reset_gives_initial_state (st : GameState) :
  Lifecycle.run Lifecycle.ResetGame st = (INITIAL_STATE, None).
Proof. reflexivity. Qed.

End Scenarios.

(** ** Ledger: the other totals, debtors *)

Module LedgerMore.
Import Ledger.





Lemma debtors_filter (st : GameState) :
  debtors st = map (debtorOf st) (filter (owes st) (validPlayers st)).
Proof.
  unfold debtors. induction (validPlayers st) as [|p ps IH]; [reflexivity|].
  cbn [map filter]. unfold owes at 1. cbn [pending].
  destruct (Qlt_le_dec 0 (pendingCash st p)); cbn [map]; now rewrite IH.
Qed.

(** X4.  The debtor list holds, in player order, exactly the non-ghost
    players whose [pendingCash] is positive, each with that amount; and a
    player's dashboard card reads "Pago" exactly when the player is not
    among them. *)
Theorem debtors_are_the_players_who_owe (st : GameState) :
  debtors st = map (debtorOf st) (filter (owes st) (validPlayers st))
  /\ (forall d, In d (debtors st) -> 0 < pending d)
  /\ (forall p, In p (validPlayers st) ->
        (Views.cardLabel st p = Views.Pago
         <-> ~ In (debtorOf st p) (debtors st))).
Proof.
  split; [apply debtors_filter|]. split.
  - intros d. rewrite debtors_filter, in_map_iff.
    intros (p & <- & Hp). apply filter_In in Hp. destruct Hp as (_ & Hp).
    unfold owes in Hp. simpl.
    now destruct (Qlt_le_dec 0 (pendingCash st p)).
  - intros p Hp. rewrite debtors_filter. unfold Views.cardLabel.
    destruct (Qlt_le_dec 0 (pendingCash st p)) as [H|H].
    + split; [discriminate|]. intros Hn. exfalso. apply Hn.
      apply in_map. apply filter_In. split; [exact Hp|].
      unfold owes. now destruct (Qlt_le_dec 0 (pendingCash st p)) as [_|H'];
        [|exfalso; apply (Qlt_not_le _ _ H H')].
    + split; [|reflexivity]. intros _ Hin.
      apply in_map_iff in Hin. destruct Hin as (q & Hq & Hin).
      apply filter_In in Hin. destruct Hin as (_ & Hin).
      unfold owes in Hin.
      destruct (Qlt_le_dec 0 (pendingCash st q)) as [H'|_]; [|discriminate].
      apply (f_equal pending) in Hq. simpl in Hq. rewrite Hq in H'.
      apply (Qlt_not_le _ _ H' H).
Qed.

Lemma debtors_are_the_players_who_owe_witness :
  map debtor_id (debtors Samples.table) = [JsString.lit "b"]
  /\ (Views.cardLabel Samples.table Samples.biaOwes = Views.Pago
      <-> ~ In (debtorOf Samples.table Samples.biaOwes)
              (debtors Samples.table)).
Proof.
  split; [reflexivity|].
  apply (proj2 (proj2 (debtors_are_the_players_who_owe Samples.table))).
  right. now left.
Defined.



End LedgerMore.

(** ** Settlement: column sums, profit flag, points *)

Module SettlementMore.
Import Settlement.


Lemma getPoints_antitone (i j : nat) :
  (i <= j)%nat -> getPoints j <= getPoints i.
Proof.
  destruct i as [|[|[|i]]], j as [|[|[|j]]]; simpl; intros H;
    try lia; discriminate.
Qed.

Lemma StronglySorted_nth {A} (R : A -> A -> Prop) (l : list A) :
  StronglySorted R l ->
  forall i j a b,
    (i < j)%nat -> nth_error l i = Some a -> nth_error l j = Some b -> R a b.
Proof.
  induction 1 as [|x l Hs IH Hx]; intros i j a b Hij Ha Hb.
  - destruct i; discriminate.
  - destruct j as [|j]; [lia|]. simpl in Hb. destruct i as [|i].
    + simpl in Ha. inversion Ha; subst.
      rewrite Forall_forall in Hx. apply Hx. eapply nth_error_In; eauto.
    + simpl in Ha. apply (IH i j); auto. lia.
Qed.

(** X10.  A player with a strictly better performance ratio stands higher
    in the ranking and is awarded at least as many points. *)
Theorem better_ratio_ranks_higher (st : GameState) (i j : nat)
  (a b : Ranked) :
  nth_error (rankedPlayers st) i = Some a ->
  nth_error (rankedPlayers st) j = Some b ->
  performanceRatio b < performanceRatio a ->
  (i < j)%nat /\ getPoints j <= getPoints i.
Proof.
  intros Ha Hb Hlt.
  assert (Hij : (i < j)%nat).
  { destruct (Nat.lt_trichotomy i j) as [H|[H|H]]; [exact H| |].
    - subst j. rewrite Ha in Hb. inversion Hb; subst.
      exfalso. exact (Qlt_irrefl _ Hlt).
    - exfalso.
      pose proof (StronglySorted_nth rankedBefore _
                    (SettlementFacts.sort_rankedBefore _) j i b a H Hb Ha)
        as [H'|[H' _]]; lra. }
  split; [exact Hij|]. apply getPoints_antitone. lia.
Qed.

Lemma better_ratio_ranks_higher_witness :
  (0 < 1)%nat /\ getPoints 1 <= getPoints 0.
Proof.
  apply (better_ratio_ranks_higher Samples.twoPlayers 0 1
           (rank Samples.twoPlayers Samples.ana80)
           (rank Samples.twoPlayers Samples.bia20));
    reflexivity.
Defined.

End SettlementMore.

(** ** Strings: more on [trim] *)

Module JsStringMore.
Import JsString.

Lemma trimStart_fixed (s : t) :
  (forall c s', s = c :: s' -> isWhiteSpace c = false) -> trimStart s = s.
Proof.
  destruct s as [|c s']; [reflexivity|]. intros H. simpl.
  now rewrite (H c s' eq_refl).
Qed.

Lemma trimEnd_fixed (s : t) :
  (forall c s', s = s' ++ [c] -> isWhiteSpace c = false) -> trimEnd s = s.
Proof.
  intros H. unfold trimEnd. rewrite trimStart_fixed.
  - apply rev_involutive.
  - intros c s' E. apply (H c (rev s')).
    apply (f_equal (@rev _)) in E. rewrite rev_involutive in E.
    rewrite E. simpl. reflexivity.
Qed.

Lemma trim_idempotent (s : t) : trim (trim s) = trim s.
Proof.
  destruct (JsStringFacts.trim_spec s) as (_ & _ & _ & _ & _ & Hhd & Hlast).
  unfold trim at 1. rewrite (trimStart_fixed _ Hhd).
  now apply trimEnd_fixed.
Qed.

Lemma trimStart_blank (s : t) :
  forallb isWhiteSpace s = true -> trimStart s = [].
Proof.
  induction s as [|c s IH]; [reflexivity|]. simpl.
  intros H. apply andb_true_iff in H. destruct H as (Hc & Hs).
  rewrite Hc. now apply IH.
Qed.

Lemma trim_blank (s : t) : forallb isWhiteSpace s = true -> trim s = [].
Proof.
  intros H. unfold trim. now rewrite trimStart_blank.
Qed.

Lemma trim_not_blank (s : t) :
  trim s <> [] -> forallb isWhiteSpace s = false.
Proof.
  intros H. destruct (forallb isWhiteSpace s) eqn:E; [|reflexivity].
  exfalso. apply H. now apply trim_blank.
Qed.

End JsStringMore.

(** ** Lifecycle: ghosts, unique ids, lookups and round trips *)

Module LifecycleMore.
Import Lifecycle.

(** X11.  [AddPlayer] with an empty name, or a name made of white space
    only, changes nothing and reports no error. *)
Theorem addPlayer_blank_name_is_noop (st : GameState)
  (newPlayerName uuid : jsString) :
  forallb JsString.isWhiteSpace newPlayerName = true ->
  run (AddPlayer newPlayerName uuid) st = (st, None).
Proof.
  intros H. simpl. unfold addPlayer.
  now rewrite (JsStringMore.trim_blank _ H).
Qed.

Lemma addPlayer_blank_name_is_noop_witness :
  run (AddPlayer (JsString.lit "   ") (JsString.lit "u1")) Samples.table
  = (Samples.table, None).
Proof.
  apply (addPlayer_blank_name_is_noop Samples.table (JsString.lit "   ")
           (JsString.lit "u1")).
  reflexivity.
Defined.

Lemma isValid_trimmed (n uuid : jsString) (b : PaymentStatus)
  (rs : list Rebuy) (c : option Q) :
  JsString.trim n <> [] ->
  Ledger.isValid (mkPlayer uuid (JsString.trim n) b rs c) = true.
Proof.
  intros H. unfold Ledger.isValid. simpl.
  rewrite JsStringMore.trim_idempotent.
  destruct (JsString.trim n) as [|x s]; [contradiction|reflexivity].
Qed.

Lemma Forall_map_same {A} (P : A -> Prop) (f : A -> A) (l : list A) :
  (forall x, P x -> P (f x)) -> Forall P l -> Forall P (map f l).
Proof.
  intros H. induction 1; simpl; constructor; auto.
Qed.

Lemma Forall_filter {A} (P : A -> Prop) (f : A -> bool) (l : list A) :
  Forall P l -> Forall P (filter f l).
Proof.
  induction 1 as [|x l Hx _ IH]; simpl; [constructor|].
  destruct (f x); [constructor|]; auto.
Qed.

(** Every handler that maps over the players rewrites a player's status,
    rebuys or cashout, never the id or the name. *)
Lemma run_players (c : Command) (st : GameState) :
  (exists f,
      players (fst (run c st)) = map f (players st)
      /\ forall p, id (f p) = id p /\ name (f p) = name p)
  \/ (exists g, players (fst (run c st)) = filter g (players st))
  \/ (exists n u,
        c = AddPlayer n u /\ JsString.trim n <> []
        /\ players (fst (run c st))
           = players st
               ++ [mkPlayer u (JsString.trim n) PENDING [] None])
  \/ players (fst (run c st)) = [].
Proof.
  destruct c as [a | n u | x | x s | x a u now | x r | x r | x a | | ];
    simpl.
  - left. exists (fun p => p). rewrite map_id. auto.
  - unfold addPlayer. destruct (JsString.trim n) as [|ch s'] eqn:E; simpl.
    + left. exists (fun p => p). rewrite map_id. auto.
    + right. right. left. exists n, u. rewrite E.
      repeat split. discriminate.
  - right. left. eexists. reflexivity.
  - left. eexists. split; [reflexivity|].
    intros p. simpl. destruct (idIs x p); auto.
  - unfold addRebuy. destruct (Qlt_le_dec a 1); simpl.
    + left. exists (fun p => p). rewrite map_id. auto.
    + left. eexists. split; [reflexivity|].
      intros p. simpl. destruct (idIs x p); auto.
  - left. eexists. split; [reflexivity|].
    intros p. simpl. destruct (idIs x p); auto.
  - left. eexists. split; [reflexivity|].
    intros p. simpl. destruct (idIs x p); auto.
  - left. eexists. split; [reflexivity|].
    intros p. simpl. destruct (idIs x p); auto.
  - left. exists (fun p => p). rewrite map_id. auto.
  - right. right. right. reflexivity.
Qed.

Lemma no_ghost_preserved (c : Command) (st : GameState) :
  Forall (fun p => Ledger.isValid p = true) (players st) ->
  Forall (fun p => Ledger.isValid p = true) (players (fst (run c st))).
Proof.
  intros H.
  destruct (run_players c st)
    as [(f & -> & Hf)|[(g & ->)|[(n & u & _ & Hn & ->)| ->]]].
  - apply Forall_map_same; [|exact H]. intros p Hp.
    unfold Ledger.isValid in *. now rewrite (proj2 (Hf p)).
  - now apply Forall_filter.
  - apply Forall_app. split; [exact H|].
    constructor; [|constructor]. now apply isValid_trimmed.
  - constructor.
Qed.

Lemma no_ghost_validPlayers (st : GameState) :
  Forall (fun p => Ledger.isValid p = true) (players st) ->
  Ledger.validPlayers st = players st.
Proof.
  intros H. unfold Ledger.validPlayers.
  apply LifecycleFacts.filter_all. now apply Forall_forall.
Qed.

(** X12.  No command creates a ghost: if no player of the state has a blank
    name, none has after any command, so the ghost filter keeps the whole
    player list. *)
Theorem commands_create_no_ghost (c : Command) (st : GameState) :
  Forall (fun p => Ledger.isValid p = true) (players st) ->
  Forall (fun p => Ledger.isValid p = true) (players (fst (run c st)))
  /\ Ledger.validPlayers (fst (run c st)) = players (fst (run c st)).
Proof.
  intros H. split; [now apply no_ghost_preserved|].
  apply no_ghost_validPlayers. now apply no_ghost_preserved.
Qed.

Lemma commands_create_no_ghost_witness :
  Forall (fun p => Ledger.isValid p = true)
    (players (fst (run (AddPlayer (JsString.lit " Caio ") (JsString.lit "c"))
                     Samples.oneRebuy)))
  /\ Ledger.validPlayers
       (fst (run (AddPlayer (JsString.lit " Caio ") (JsString.lit "c"))
               Samples.oneRebuy))
     = players
         (fst (run (AddPlayer (JsString.lit " Caio ") (JsString.lit "c"))
                 Samples.oneRebuy)).
Proof.
  apply (commands_create_no_ghost
           (AddPlayer (JsString.lit " Caio ") (JsString.lit "c"))
           Samples.oneRebuy).
  repeat constructor.
Defined.

Lemma NoDup_filter_map {A B} (k : A -> B) (g : A -> bool) (l : list A) :
  NoDup (map k l) -> NoDup (map k (filter g l)).
Proof.
  induction l as [|x l IH]; simpl; intros H; [constructor|].
  inversion H as [|? ? Hx Hl]; subst.
  destruct (g x); simpl; [|now apply IH].
  constructor; [|now apply IH].
  intros Hin. apply Hx. apply in_map_iff in Hin.
  destruct Hin as (y & Hy & Hin). apply filter_In in Hin.
  apply in_map_iff. exists y. tauto.
Qed.

(** X13.  Player ids stay unique: if no two players share an id and
    [AddPlayer] is given an id no player has, no two players share an id
    after the command. *)
Theorem player_ids_stay_unique (c : Command) (st : GameState) :
  NoDup (map id (players st)) ->
  (forall n u, c = AddPlayer n u -> ~ In u (map id (players st))) ->
  NoDup (map id (players (fst (run c st)))).
Proof.
  intros H Hfresh.
  destruct (run_players c st)
    as [(f & -> & Hf)|[(g & ->)|[(n & u & -> & Hn & ->)| ->]]].
  - rewrite map_map. erewrite map_ext; [exact H|].
    intros p. apply (proj1 (Hf p)).
  - now apply NoDup_filter_map.
  - rewrite map_app. simpl.
    apply NoDup_app; [exact H|repeat constructor; intros []|].
    intros x Hx [<-|[]]. exact (Hfresh n u eq_refl Hx).
  - constructor.
Qed.

Lemma player_ids_stay_unique_witness :
  NoDup
    (map id
       (players (fst (run (AddPlayer (JsString.lit "Caio") (JsString.lit "c"))
                        Samples.table)))).
Proof.
  apply (player_ids_stay_unique
           (AddPlayer (JsString.lit "Caio") (JsString.lit "c")) Samples.table).
  - repeat constructor; simpl; intuition discriminate.
  - intros n u E. inversion E; subst. simpl. intuition discriminate.
Defined.

Lemma NoDup_snoc {A} (l : list A) (x : A) :
  NoDup l -> ~ In x l -> NoDup (l ++ [x]).
Proof.
  intros H Hx. apply NoDup_app; [exact H|repeat constructor; intros []|].
  intros y Hy [<-|[]]. exact (Hx Hy).
Qed.

(** X14.  Rebuy ids stay unique within each player: if no player holds two
    rebuys with one id and [AddRebuy] is given an id the addressed player
    does not hold, no player holds two rebuys with one id after the
    command. *)
Theorem rebuy_ids_stay_unique (c : Command) (st : GameState) :
  Forall (fun p => NoDup (map rebuy_id (rebuys p))) (players st) ->
  (forall x a u now,
     c = AddRebuy x a u now ->
     forall p, In p (players st) -> id p = x ->
               ~ In u (map rebuy_id (rebuys p))) ->
  Forall (fun p => NoDup (map rebuy_id (rebuys p)))
    (players (fst (run c st))).
Proof.
  intros H Hfresh. rewrite Forall_forall in H. apply Forall_forall.
  destruct c as [a | n u | x | x s | x a u now | x r | x r | x a | | ];
    simpl; try exact H.
  - unfold addPlayer.
    destruct (negb (JsString.truthy (JsString.trim n))); [exact H|].
    simpl. intros p Hp. apply in_app_or in Hp.
    destruct Hp as [Hp|[<-|[]]]; [now apply H|constructor].
  - intros p Hp. apply filter_In in Hp. apply H. tauto.
  - intros p Hp. apply in_map_iff in Hp. destruct Hp as (q & <- & Hq).
    destruct (idIs x q); [simpl|]; now apply H.
  - unfold addRebuy. destruct (Qlt_le_dec a 1) as [Hlt|Hle]; [exact H|].
    simpl. intros p Hp. apply in_map_iff in Hp. destruct Hp as (q & <- & Hq).
    destruct (idIs x q) eqn:E; [|now apply H]. simpl.
    rewrite map_app. simpl. apply NoDup_snoc; [now apply H|].
    apply (Hfresh x a u now eq_refl q Hq).
    now apply LifecycleFacts.idIs_true.
  - intros p Hp. apply in_map_iff in Hp. destruct Hp as (q & <- & Hq).
    destruct (idIs x q); [simpl|now apply H].
    apply NoDup_filter_map. now apply H.
  - intros p Hp. apply in_map_iff in Hp. destruct Hp as (q & <- & Hq).
    destruct (idIs x q); [simpl|now apply H].
    rewrite map_map. erewrite map_ext; [now apply H|].
    intros r0. now destruct (rebuyIdIs r r0).
  - intros p Hp. apply in_map_iff in Hp. destruct Hp as (q & <- & Hq).
    destruct (idIs x q); [simpl|]; now apply H.
  - intros p [].
Qed.

Lemma rebuy_ids_stay_unique_witness :
  Forall (fun p => NoDup (map rebuy_id (rebuys p)))
    (players
       (fst (run (AddRebuy (JsString.lit "a") 25 (JsString.lit "r2") 7)
               Samples.oneRebuy))).
Proof.
  apply (rebuy_ids_stay_unique
           (AddRebuy (JsString.lit "a") 25 (JsString.lit "r2") 7)
           Samples.oneRebuy).
  - repeat constructor. simpl. tauto.
  - intros x a u now E p [<-|[]] _. inversion E; subst.
    simpl. intuition discriminate.
Defined.

Lemma find_after_filter (x y : jsString) (l : list Player) :
  find (idIs y) (filter (fun p => negb (idIs x p)) l)
  = if JsString.eqb y x then None else find (idIs y) l.
Proof.
  induction l as [|p l IH]; simpl.
  - now destruct (JsString.eqb y x).
  - destruct (idIs x p) eqn:Ex; simpl.
    + rewrite IH. destruct (JsString.eqb y x) eqn:Eyx; [reflexivity|].
      apply LifecycleFacts.idIs_true in Ex.
      apply JsStringFacts.eqb_neq in Eyx.
      rewrite (LifecycleFacts.idIs_false y p); [reflexivity|congruence].
    + destruct (idIs y p) eqn:Ey; [|exact IH].
      destruct (JsString.eqb y x) eqn:Eyx; [|reflexivity].
      apply JsStringFacts.eqb_eq in Eyx. subst y. congruence.
Qed.

(** X15.  Looking a player up after [RemovePlayer]: the removed id is not
    found any more, and every other id finds what it found before. *)
Theorem getPlayer_after_removePlayer (st : GameState) (x y : jsString) :
  Views.getPlayer (fst (run (RemovePlayer x) st)) y
  = if JsString.eqb y x then None else Views.getPlayer st y.
Proof. apply find_after_filter. Qed.

Lemma find_app {A} (f : A -> bool) (l1 l2 : list A) :
  find f (l1 ++ l2)
  = match find f l1 with Some a => Some a | None => find f l2 end.
Proof.
  induction l1 as [|a l1 IH]; simpl; [reflexivity|].
  now destruct (f a).
Qed.

(** X16.  Looking a player up after [AddPlayer] with a name that is not
    blank: an id that was found before finds the same player, and the new
    id, if no player had it, finds the new player. *)
Theorem getPlayer_after_addPlayer (st : GameState)
  (newPlayerName uuid y : jsString) :
  JsString.trim newPlayerName <> [] ->
  Views.getPlayer (fst (run (AddPlayer newPlayerName uuid) st)) y
  = match Views.getPlayer st y with
    | Some p => Some p
    | None =>
        if JsString.eqb uuid y
        then Some (mkPlayer uuid (JsString.trim newPlayerName) PENDING []
                     None)
        else None
    end.
Proof.
  intros H. simpl. unfold addPlayer, Views.getPlayer.
  destruct (JsString.trim newPlayerName) as [|c s'] eqn:E;
    [contradiction|].
  simpl. rewrite find_app. simpl. unfold idIs at 2. simpl.
  reflexivity.
Qed.

Lemma getPlayer_after_addPlayer_witness :
  Views.getPlayer
    (fst (run (AddPlayer (JsString.lit " Caio ") (JsString.lit "c"))
            Samples.table))
    (JsString.lit "c")
  = match Views.getPlayer Samples.table (JsString.lit "c") with
    | Some p => Some p
    | None =>
        if JsString.eqb (JsString.lit "c") (JsString.lit "c")
        then Some (mkPlayer (JsString.lit "c")
                     (JsString.trim (JsString.lit " Caio ")) PENDING [] None)
        else None
    end.
Proof.
  apply (getPlayer_after_addPlayer Samples.table (JsString.lit " Caio ")
           (JsString.lit "c") (JsString.lit "c")).
  vm_compute. discriminate.
Defined.

Lemma filter_app_last (x : jsString) (l : list Player) (p : Player) :
  (forall q, In q l -> id q <> x) -> id p = x ->
  filter (fun q => negb (idIs x q)) (l ++ [p]) = l.
Proof.
  intros Hl Hp. rewrite filter_app. simpl.
  rewrite (proj2 (LifecycleFacts.idIs_true x p) Hp). simpl.
  rewrite app_nil_r. apply LifecycleFacts.filter_all.
  intros q Hq. now rewrite (LifecycleFacts.idIs_false x q (Hl q Hq)).
Qed.

(** X17.  Adding a player under an id no player has and removing that id
    again gives the state back, whether or not the name was blank. *)
Theorem addPlayer_then_removePlayer (st : GameState)
  (newPlayerName uuid : jsString) :
  (forall p, In p (players st) -> id p <> uuid) ->
  fst (run (RemovePlayer uuid)
         (fst (run (AddPlayer newPlayerName uuid) st)))
  = st.
Proof.
  intros H. simpl. unfold addPlayer, removePlayer.
  destruct (negb (JsString.truthy (JsString.trim newPlayerName))); simpl.
  - rewrite LifecycleFacts.filter_all; [apply LifecycleFacts.withPlayers_same|].
    intros q Hq. now rewrite (LifecycleFacts.idIs_false uuid q (H q Hq)).
  - rewrite filter_app_last; [now destruct st|exact H|reflexivity].
Qed.

Lemma addPlayer_then_removePlayer_witness :
  fst (run (RemovePlayer (JsString.lit "c"))
         (fst (run (AddPlayer (JsString.lit "Caio") (JsString.lit "c"))
                 Samples.table)))
  = Samples.table.
Proof.
  apply (addPlayer_then_removePlayer Samples.table (JsString.lit "Caio")
           (JsString.lit "c")).
  intros p [<-|[<-|[<-|[]]]]; discriminate.
Defined.

(** X18.  Adding a rebuy under an id the addressed player does not hold and
    removing that rebuy id again gives the state back, whether the amount
    was accepted or rejected. *)
Theorem addRebuy_then_removeRebuy (st : GameState) (playerId : jsString)
  (a : Q) (uuid : jsString) (now : Z) :
  (forall p, In p (players st) -> id p = playerId ->
             forall r, In r (rebuys p) -> rebuy_id r <> uuid) ->
  fst (run (RemoveRebuy playerId uuid)
         (fst (run (AddRebuy playerId a uuid now) st)))
  = st.
Proof.
  intros H.
  assert (Hno : removeRebuy playerId uuid st = st).
  { unfold removeRebuy. apply LifecycleFacts.map_players_noop.
    intros p Hp E. rewrite LifecycleFacts.filter_all;
      [apply LifecycleFacts.withRebuys_same|].
    intros r Hr.
    now rewrite (LifecycleFacts.rebuyIdIs_false _ _ (H p Hp E r Hr)). }
  simpl. unfold addRebuy.
  destruct (Qlt_le_dec a 1) as [Hlt|Hle]; simpl; [exact Hno|].
  clear Hno. destruct st as [started fin cfg ps].
  unfold removeRebuy, withPlayers. simpl in *. f_equal.
  rewrite map_map. apply LifecycleFacts.map_fixed.
  intros p Hp. destruct (idIs playerId p) eqn:E; [|now rewrite E].
  unfold idIs in *. simpl. rewrite E.
  rewrite filter_app. simpl. unfold rebuyIdIs at 2. simpl.
  rewrite JsStringFacts.eqb_refl. simpl. rewrite app_nil_r.
  rewrite LifecycleFacts.filter_all.
  - now destruct p.
  - intros r Hr.
    rewrite (LifecycleFacts.rebuyIdIs_false uuid r); [reflexivity|].
    apply (H p Hp); [|exact Hr]. now apply JsStringFacts.eqb_eq.
Qed.

Lemma addRebuy_then_removeRebuy_witness :
  fst (run (RemoveRebuy (JsString.lit "a") (JsString.lit "r2"))
         (fst (run (AddRebuy (JsString.lit "a") 25 (JsString.lit "r2") 7)
                 Samples.oneRebuy)))
  = Samples.oneRebuy.
Proof.
  apply (addRebuy_then_removeRebuy Samples.oneRebuy (JsString.lit "a") 25
           (JsString.lit "r2") 7).
  intros p [<-|[]] _ r [<-|[]]. discriminate.
Defined.

Lemma validPlayers_map (f : Player -> Player) (l : list Player) :
  (forall p, name (f p) = name p) ->
  filter Ledger.isValid (map f l) = map f (filter Ledger.isValid l).
Proof.
  intros H. induction l as [|p l IH]; simpl; [reflexivity|].
  unfold Ledger.isValid at 1. rewrite H. fold (Ledger.isValid p).
  destruct (Ledger.isValid p); simpl; now rewrite IH.
Qed.

(** The ledger reads the name, the buy-in status and the rebuys of a
    player, nothing else. *)
Lemma calculateTotals_map (st : GameState) (f : Player -> Player) :
  (forall p, name (f p) = name p /\ buyInStatus (f p) = buyInStatus p
             /\ rebuys (f p) = rebuys p) ->
  Ledger.calculateTotals (withPlayers st (map f (players st)))
  = Ledger.calculateTotals st.
Proof.
  intros H. unfold Ledger.calculateTotals, Ledger.validPlayers. simpl.
  rewrite validPlayers_map by (intros p; apply H).
  generalize Ledger.zeroTotals.
  induction (filter Ledger.isValid (players st)) as [|p l IH]; intros t;
    [reflexivity|].
  simpl. rewrite <- IH. f_equal. unfold Ledger.playerStep. simpl.
  destruct (H p) as (_ & -> & ->). reflexivity.
Qed.

Lemma debtors_map (st : GameState) (f : Player -> Player) :
  (forall p, id (f p) = id p /\ name (f p) = name p
             /\ buyInStatus (f p) = buyInStatus p
             /\ rebuys (f p) = rebuys p) ->
  Ledger.debtors (withPlayers st (map f (players st))) = Ledger.debtors st.
Proof.
  intros H. unfold Ledger.debtors, Ledger.validPlayers. simpl.
  rewrite validPlayers_map by (intros p; apply H).
  rewrite map_map. f_equal. apply map_ext. intros p.
  destruct (H p) as (Hi & Hn & Hb & Hr).
  unfold Ledger.pendingCash, Ledger.totalCostCash, Ledger.paidCash. simpl.
  now rewrite Hi, Hn, Hb, Hr.
Qed.

(** X19.  Entering a cashout never touches the ledger: the dashboard totals
    and the debtor list are the same after [SubmitCashout]; and of two
    cashouts entered for one player the later one stands. *)
Theorem submitCashout_leaves_ledger (st : GameState) (x : jsString)
  (a b : Q) :
  Ledger.calculateTotals (fst (run (SubmitCashout x a) st))
  = Ledger.calculateTotals st
  /\ Ledger.debtors (fst (run (SubmitCashout x a) st)) = Ledger.debtors st
  /\ fst (run (SubmitCashout x a) (fst (run (SubmitCashout x b) st)))
     = fst (run (SubmitCashout x a) st).
Proof.
  simpl. unfold submitCashout. split; [|split].
  - apply calculateTotals_map. intros p. now destruct (idIs x p).
  - apply debtors_map. intros p. now destruct (idIs x p).
  - destruct st as [started fin cfg ps]. unfold withPlayers. simpl.
    f_equal. rewrite map_map. apply map_ext. intros p.
    destruct (idIs x p) eqn:E; [|now rewrite E].
    unfold idIs in *. simpl. now rewrite E.
Qed.

Lemma insert_map {A B} (h : A -> B) (cmpA : A -> A -> Q)
  (cmpB : B -> B -> Q) (x : A) (l : list A) :
  (forall a b, cmpB (h a) (h b) = cmpA a b) ->
  insert cmpB (h x) (map h l) = map h (insert cmpA x l).
Proof.
  intros H. induction l as [|y l IH]; simpl; [reflexivity|].
  rewrite H. destruct (Qlt_le_dec 0 (cmpA x y)); simpl; [|reflexivity].
  now rewrite IH.
Qed.

Lemma sort_map {A B} (h : A -> B) (cmpA : A -> A -> Q)
  (cmpB : B -> B -> Q) (l : list A) :
  (forall a b, cmpB (h a) (h b) = cmpA a b) ->
  sort cmpB (map h l) = map h (sort cmpA l).
Proof.
  intros H. induction l as [|x l IH]; simpl; [reflexivity|].
  rewrite IH. now apply insert_map.
Qed.

Lemma fold_amount_forget (rs : list Rebuy) (a : Q) :
  fold_left (fun sum x => sum + amount x) (map forgetRebuyStatus rs) a
  = fold_left (fun sum x => sum + amount x) rs a.
Proof.
  revert a. induction rs as [|r rs IH]; intros a; simpl; [reflexivity|].
  apply IH.
Qed.

Lemma rank_forget (st : GameState) (p : Player) :
  Settlement.rank (forgetStatuses st) (forgetPlayerStatus p)
  = forgetRanked (Settlement.rank st p).
Proof.
  unfold Settlement.rank, forgetRanked, reduceSum. simpl.
  now rewrite fold_amount_forget.
Qed.

Lemma rankedPlayers_forget (st : GameState) :
  Settlement.rankedPlayers (forgetStatuses st)
  = map forgetRanked (Settlement.rankedPlayers st).
Proof.
  unfold Settlement.rankedPlayers.
  rewrite LedgerFacts.validPlayers_forget, map_map.
  rewrite (map_ext _ (fun p => forgetRanked (Settlement.rank st p)))
    by (intros p; apply rank_forget).
  rewrite <- (map_map (Settlement.rank st) forgetRanked).
  apply sort_map. reflexivity.
Qed.

Lemma declared_forget (st : GameState) :
  Settlement.totalCashoutDeclared (forgetStatuses st)
  == Settlement.totalCashoutDeclared st.
Proof.
  rewrite !SettlementFacts.totalCashoutDeclared_sum.
  rewrite LedgerFacts.validPlayers_forget, map_map. reflexivity.
Qed.

Lemma chipsDifference_forget (st : GameState) :
  Settlement.chipsDifference (forgetStatuses st)
  == Settlement.chipsDifference st.
Proof.
  unfold Settlement.chipsDifference.
  rewrite declared_forget, !LedgerFacts.totalChips_chipsCredited.
  now rewrite LedgerFacts.chipsCredited_forget.
Qed.

Lemma settlement_forget (st st' : GameState) :
  forgetStatuses st' = forgetStatuses st ->
  map forgetRanked (Settlement.rankedPlayers st')
  = map forgetRanked (Settlement.rankedPlayers st)
  /\ Settlement.chipsDifference st' == Settlement.chipsDifference st.
Proof.
  intros E. split.
  - now rewrite <- !rankedPlayers_forget, E.
  - now rewrite <- (chipsDifference_forget st'), E, chipsDifference_forget.
Qed.

Lemma forget_updatePlayerStatus (x : jsString) (s : PaymentStatus)
  (st : GameState) :
  forgetStatuses (updatePlayerStatus x s st) = forgetStatuses st.
Proof.
  unfold forgetStatuses, updatePlayerStatus, withPlayers. simpl. f_equal.
  rewrite map_map. apply map_ext. intros p. now destruct (idIs x p).
Qed.

Lemma forget_toggleRebuyStatus (x r : jsString) (st : GameState) :
  forgetStatuses (toggleRebuyStatus x r st) = forgetStatuses st.
Proof.
  unfold forgetStatuses, toggleRebuyStatus, withPlayers. simpl. f_equal.
  rewrite map_map. apply map_ext. intros p.
  destruct (idIs x p); [|reflexivity].
  unfold forgetPlayerStatus. simpl. f_equal.
  rewrite map_map. apply map_ext. intros r0. now destruct (rebuyIdIs r r0).
Qed.

(** X20.  Marking a buy-in or toggling a rebuy as paid or pending never
    changes the settlement: the ranking has the same players in the same
    order with the same figures (only the payment statuses inside the
    entries differ), and the chip difference of the audit is the same. *)
Theorem payment_status_leaves_settlement (st : GameState)
  (x r : jsString) (s : PaymentStatus) :
  (map forgetRanked
     (Settlement.rankedPlayers (fst (run (SetBuyInStatus x s) st)))
   = map forgetRanked (Settlement.rankedPlayers st)
   /\ Settlement.chipsDifference (fst (run (SetBuyInStatus x s) st))
      == Settlement.chipsDifference st)
  /\ (map forgetRanked
        (Settlement.rankedPlayers (fst (run (ToggleRebuyStatus x r) st)))
      = map forgetRanked (Settlement.rankedPlayers st)
      /\ Settlement.chipsDifference (fst (run (ToggleRebuyStatus x r) st))
         == Settlement.chipsDifference st).
Proof.
  split; apply settlement_forget; simpl.
  - apply forget_updatePlayerStatus.
  - apply forget_toggleRebuyStatus.
Qed.

End LifecycleMore.

(** ** Persistence *)

Module PersistenceFacts.
Import Persistence.

Lemma filter_twice {A} (f : A -> bool) (l : list A) :
  filter f (filter f l) = filter f l.
Proof.
  induction l as [|x l IH]; simpl; [reflexivity|].
  destruct (f x) eqn:E; simpl; rewrite ?E, IH; reflexivity.
Qed.

Lemma sanitize_valid (st : GameState) :
  Forall (fun p => Ledger.isValid p = true) (players (sanitize st)).
Proof.
  simpl. apply Forall_forall. intros p Hp. apply filter_In in Hp. tauto.
Qed.

Lemma validPlayers_sanitize (st : GameState) :
  Ledger.validPlayers (sanitize st) = Ledger.validPlayers st.
Proof. unfold Ledger.validPlayers. simpl. apply filter_twice. Qed.

(** X23.  Loading a stored document drops the blank-named players and
    nothing else: the loaded state has no ghost, shows the same totals, the
    same debtors and the same ranking as the stored one, and loading it
    again changes nothing. *)
Theorem load_drops_only_ghosts (stored : GameState) :
  let st := fst (load (Some stored)) in
  Ledger.validPlayers st = players st
  /\ players st = Ledger.validPlayers stored
  /\ Ledger.calculateTotals st = Ledger.calculateTotals stored
  /\ Ledger.debtors st = Ledger.debtors stored
  /\ Settlement.rankedPlayers st = Settlement.rankedPlayers stored
  /\ Settlement.chipsDifference st = Settlement.chipsDifference stored
  /\ load (Some st) = load (Some stored).
Proof.
  cbn [load fst].
  pose proof (validPlayers_sanitize stored) as V.
  repeat split.
  - rewrite V. reflexivity.
  - unfold Ledger.calculateTotals. now rewrite V.
  - unfold Ledger.debtors. now rewrite V.
  - unfold Settlement.rankedPlayers. now rewrite V.
  - unfold Settlement.chipsDifference, Settlement.totalCashoutDeclared,
      Ledger.calculateTotals. now rewrite V.
  - unfold load, sanitize. simpl. now rewrite filter_twice.
Qed.

End PersistenceFacts.

(** ** The component: what holds of every state it goes through *)

Module UiFacts.
Import Ui.

Lemma View_eqb_eq (a b : View) : View_eqb a b = true <-> a = b.
Proof. destruct a, b; simpl; split; congruence. Qed.

Lemma screen_view (u : State) :
  match screen u with
  | SetupScreen => view u = SETUP
  | DetailScreen p => view u = PLAYER_DETAIL
  | SettlementScreen => view u = RANKING \/ view u = CASHOUT
  | DashboardScreen => view u = DASHBOARD \/ view u = PLAYER_DETAIL
  end.
Proof.
  unfold screen. destruct (view u); simpl; auto.
  destruct (Views.getPlayer _ _); auto.
Qed.

Lemma addRebuy_flags (x : jsString) (a : Q) (uuid : jsString) (now : Z)
  (g : GameState) :
  isStarted (fst (Lifecycle.addRebuy x a uuid now g)) = isStarted g
  /\ finished (fst (Lifecycle.addRebuy x a uuid now g)) = finished g.
Proof.
  unfold Lifecycle.addRebuy. now destruct (Qlt_le_dec a 1).
Qed.

Lemma addPlayer_flags (n uuid : jsString) (g : GameState) :
  isStarted (Lifecycle.addPlayer n uuid g) = isStarted g
  /\ finished (Lifecycle.addPlayer n uuid g) = finished g.
Proof.
  unfold Lifecycle.addPlayer.
  now destruct (negb (JsString.truthy (JsString.trim n))).
Qed.

Ltac break_ifs :=
  repeat match goal with
    | |- context [if ?b then _ else _] => destruct b eqn:?
    end.

Ltac keep_valid Hvalid :=
  first
    [ exact Hvalid
    | constructor
    | apply (LifecycleMore.no_ghost_preserved
               (Lifecycle.SetBuyInStatus _ _) _ Hvalid)
    | apply (LifecycleMore.no_ghost_preserved
               (Lifecycle.AddRebuy _ _ _ _) _ Hvalid)
    | apply (LifecycleMore.no_ghost_preserved
               (Lifecycle.ToggleRebuyStatus _ _) _ Hvalid)
    | apply (LifecycleMore.no_ghost_preserved
               (Lifecycle.RemoveRebuy _ _) _ Hvalid)
    | apply (LifecycleMore.no_ghost_preserved
               (Lifecycle.RemovePlayer _) _ Hvalid)
    | apply (LifecycleMore.no_ghost_preserved
               (Lifecycle.SubmitCashout _ _) _ Hvalid)
    | apply (LifecycleMore.no_ghost_preserved
               (Lifecycle.AddPlayer _ _) _ Hvalid) ].

(** The invariant just after a handler, before the effect that clears the
    delete confirmation. *)
Lemma handle_invariant (u : State) (e : Event) (h : State) :
  uiInvariant u ->
  handle u e = Some h ->
  (view h <> SETUP -> isStarted (gameState h) = true)
  /\ (finished (gameState h) = true -> view h = RANKING)
  /\ (showDeleteConfirm h = true ->
      view h = PLAYER_DETAIL \/ showDeleteConfirm u = true)
  /\ Forall (fun p => Ledger.isValid p = true) (players (gameState h)).
Proof.
  intros (Hstarted & Hfinished & Hconfirm & Hvalid).
  unfold handle, modal. pose proof (screen_view u) as V.
  destruct (screen u) as [|p| |] eqn:S.
  - destruct e; try discriminate. intros E. inversion E; subst; clear E.
    simpl. repeat split; auto; discriminate.
  - assert (Hs : isStarted (gameState u) = true)
      by (apply Hstarted; rewrite V; discriminate).
    assert (Hf : finished (gameState u) = false).
    { destruct (finished (gameState u)); [|reflexivity].
      rewrite (Hfinished eq_refl) in V. discriminate. }
    destruct e; try discriminate; break_ifs; try discriminate;
      intros E; inversion E; subst; clear E; simpl;
      rewrite ?(proj1 (addRebuy_flags _ _ _ _ _)),
        ?(proj2 (addRebuy_flags _ _ _ _ _)), ?Hf;
      (split; [auto|]); (split; [discriminate|]);
      (split; [auto|]); keep_valid Hvalid.
  - destruct e; try discriminate; break_ifs; try discriminate;
      intros E; inversion E; subst; clear E; simpl;
      repeat match goal with
        | H : View_eqb _ _ = true |- _ => apply View_eqb_eq in H
        | H : _ && _ = true |- _ => apply andb_true_iff in H; destruct H
        end;
      (split;
       [first [ intros _; apply Hstarted; congruence
              | intros H; exfalso; apply H; reflexivity
              | auto ]|]);
      (split;
       [first [ reflexivity
              | intros H; apply Hfinished in H; congruence
              | discriminate
              | auto ]|]);
      (split; [auto|]); keep_valid Hvalid.
  - assert (Hs : isStarted (gameState u) = true)
      by (apply Hstarted; destruct V as [V|V]; rewrite V; discriminate).
    assert (Hf : finished (gameState u) = false).
    { destruct (finished (gameState u)); [|reflexivity].
      rewrite (Hfinished eq_refl) in V. destruct V; discriminate. }
    destruct e; try discriminate; break_ifs; try discriminate;
      intros E; inversion E; subst; clear E; simpl;
      rewrite ?(proj1 (addPlayer_flags _ _ _)),
        ?(proj2 (addPlayer_flags _ _ _)), ?Hf;
      (split;
       [first [ intros H; exfalso; apply H; reflexivity | auto ]|]);
      (split; [first [discriminate | auto]|]);
      (split; [auto|]); keep_valid Hvalid.
Qed.

Lemma step_invariant (u : State) (e : Event) (u' : State) :
  uiInvariant u -> step u e = Some u' -> uiInvariant u'.
Proof.
  intros Hu. unfold step. destruct (handle u e) as [h|] eqn:H;
    [|discriminate].
  destruct (handle_invariant u e h Hu H) as (H1 & H2 & H3 & H4).
  simpl. intros E. inversion E; subst; clear E.
  unfold resetDeleteConfirm.
  destruct (View_eqb (view u) (view h)
            && selected_eqb (selectedPlayerId u) (selectedPlayerId h))
    eqn:C.
  - repeat split; auto. intros F. destruct (H3 F) as [G|G]; [exact G|].
    apply andb_true_iff in C. destruct C as (C & _).
    apply View_eqb_eq in C. rewrite <- C.
    destruct Hu as (_ & _ & Hc & _). now apply Hc.
  - repeat split; auto. simpl. discriminate.
Qed.

Lemma mount_invariant (saved : option GameState) :
  (forall s, saved = Some s -> finished s = true -> isStarted s = true) ->
  uiInvariant (mount saved).
Proof.
  intros H. destruct saved as [s|]; unfold mount, uiInvariant; simpl.
  - specialize (H s eq_refl).
    destruct (isStarted s), (finished s); simpl;
      repeat split; try discriminate; auto;
      try (intros F; exfalso; apply F; reflexivity);
      try (intros F; specialize (H F); discriminate);
      apply PersistenceFacts.sanitize_valid.
  - repeat split; try discriminate; auto;
      intros F; exfalso; now apply F.
Qed.

Lemma reachable_invariant (u : State) : reachable u -> uiInvariant u.
Proof.
  induction 1 as [|u e u' _ IH Hstep|u _ IH].
  - apply mount_invariant. discriminate.
  - exact (step_invariant u e u' IH Hstep).
  - apply mount_invariant. intros s E F. inversion E; subst.
    destruct IH as (Hs & Hf & _). apply Hs. rewrite (Hf F). discriminate.
Qed.

Lemma reachable_done : reachable UiSamples.done.
Proof.
  apply (reach_step UiSamples.cashingOut ClickFinish); [|reflexivity].
  apply (reach_step UiSamples.started ClickEndGame); [|reflexivity].
  apply (reach_step UiSamples.fresh (ClickStart 50)); [|reflexivity].
  apply reach_first.
Qed.

(** X24.  In every state the component goes through, a finished game is a
    started game shown on the ranking page, and every page but the setup
    page shows a started game: [finishGame] is never run on a game that was
    not started. *)
Theorem ui_finished_implies_started (u : State) :
  reachable u ->
  (finished (gameState u) = true -> isStarted (gameState u) = true)
  /\ (finished (gameState u) = true -> view u = RANKING)
  /\ (view u <> SETUP -> isStarted (gameState u) = true).
Proof.
  intros R. destruct (reachable_invariant u R) as (Hs & Hf & _).
  repeat split; auto. intros F. apply Hs. rewrite (Hf F). discriminate.
Qed.

Lemma ui_finished_implies_started_witness :
  (finished (gameState UiSamples.done) = true ->
   isStarted (gameState UiSamples.done) = true)
  /\ (finished (gameState UiSamples.done) = true ->
      view UiSamples.done = RANKING)
  /\ (view UiSamples.done <> SETUP ->
      isStarted (gameState UiSamples.done) = true).
Proof.
  apply (ui_finished_implies_started UiSamples.done).
  exact reachable_done.
Defined.

Lemma handle_on_ranking (u : State) (e : Event) (h : State) :
  view u = RANKING -> handle u e = Some h ->
  (gameState h = gameState u /\ view h = RANKING)
  \/ (e = ClickConfirmReset /\ gameState h = INITIAL_STATE
      /\ view h = SETUP).
Proof.
  intros V. unfold handle, modal, screen. rewrite V. simpl.
  destruct e; try discriminate; break_ifs; try discriminate;
    intros E; inversion E; subst; clear E; simpl; auto.
Qed.

(** X25.  A finished game is frozen: in a state the component goes
    through, once the game is finished no event changes the game state,
    except the confirmed reset, which returns to the initial state and the
    setup page. *)
Theorem ui_finished_game_is_frozen (u : State) (e : Event) (u' : State) :
  reachable u ->
  finished (gameState u) = true ->
  step u e = Some u' ->
  (gameState u' = gameState u /\ view u' = RANKING)
  \/ (e = ClickConfirmReset /\ gameState u' = INITIAL_STATE
      /\ view u' = SETUP).
Proof.
  intros R F. destruct (reachable_invariant u R) as (_ & Hf & _).
  unfold step. destruct (handle u e) as [h|] eqn:H; [|discriminate].
  simpl. intros E. inversion E; subst; clear E.
  assert (G : forall a b, gameState (resetDeleteConfirm a b) = gameState b
                          /\ view (resetDeleteConfirm a b) = view b).
  { intros a b. unfold resetDeleteConfirm.
    now destruct (View_eqb (view a) (view b)
                  && selected_eqb (selectedPlayerId a) (selectedPlayerId b)). }
  destruct (G u h) as (-> & ->).
  exact (handle_on_ranking u e h (Hf F) H).
Qed.

Lemma ui_finished_game_is_frozen_witness :
  (gameState UiSamples.doneAskingReset = gameState UiSamples.done
   /\ view UiSamples.doneAskingReset = RANKING)
  \/ (ClickReset = ClickConfirmReset
      /\ gameState UiSamples.doneAskingReset = INITIAL_STATE
      /\ view UiSamples.doneAskingReset = SETUP).
Proof.
  apply (ui_finished_game_is_frozen UiSamples.done ClickReset
           UiSamples.doneAskingReset).
  - exact reachable_done.
  - reflexivity.
  - reflexivity.
Defined.

(** X26.  No state the component goes through holds a ghost: the player
    list and the list of non-ghost players are the same list. *)
Theorem ui_never_holds_a_ghost (u : State) :
  reachable u ->
  Ledger.validPlayers (gameState u) = players (gameState u).
Proof.
  intros R. destruct (reachable_invariant u R) as (_ & _ & _ & Hv).
  now apply LifecycleMore.no_ghost_validPlayers.
Qed.

Lemma ui_never_holds_a_ghost_witness :
  Ledger.validPlayers (gameState UiSamples.done)
  = players (gameState UiSamples.done).
Proof.
  apply (ui_never_holds_a_ghost UiSamples.done). exact reachable_done.
Defined.

(** X27.  Players leave the table only through a confirmed delete or a
    confirmed reset: an event after which the state holds fewer players is
    the confirmation of one of the two, with the corresponding question on
    screen. *)
Theorem ui_players_lost_only_when_confirmed (u : State) (e : Event)
  (u' : State) :
  step u e = Some u' ->
  (List.length (players (gameState u'))
   < List.length (players (gameState u)))%nat ->
  (e = ClickConfirmDelete /\ showDeleteConfirm u = true)
  \/ (e = ClickConfirmReset /\ showResetModal u = true).
Proof.
  unfold step. destruct (handle u e) as [h|] eqn:H; [|discriminate].
  simpl. intros E. inversion E; subst; clear E.
  assert (G : gameState (resetDeleteConfirm u h) = gameState h).
  { unfold resetDeleteConfirm.
    now destruct (View_eqb (view u) (view h)
                  && selected_eqb (selectedPlayerId u) (selectedPlayerId h)). }
  rewrite G. clear G. revert H. unfold handle, modal.
  destruct (screen u) as [|p| |]; destruct e; try discriminate;
    break_ifs; try discriminate;
    intros E; inversion E; subst; clear E; simpl;
    unfold Lifecycle.addRebuy, Lifecycle.addPlayer;
    break_ifs; simpl;
    rewrite ?length_map, ?length_app; simpl; auto; intros; lia.
Qed.

Lemma ui_players_lost_only_when_confirmed_witness :
  (ClickConfirmDelete = ClickConfirmDelete
   /\ showDeleteConfirm UiSamples.deletingAna = true)
  \/ (ClickConfirmDelete = ClickConfirmReset
      /\ showResetModal UiSamples.deletingAna = true).
Proof.
  apply (ui_players_lost_only_when_confirmed UiSamples.deletingAna
           ClickConfirmDelete UiSamples.anaDeleted).
  - reflexivity.
  - simpl. lia.
Defined.

Lemma reachable_deletingAna : reachable UiSamples.deletingAna.
Proof.
  apply (reach_step UiSamples.onAna ClickDelete); [|reflexivity].
  apply (reach_step UiSamples.withAna (ClickPlayer (JsString.lit "a")));
    [|reflexivity].
  apply (reach_step UiSamples.started
           (SubmitNewPlayer (JsString.lit " Ana ") (JsString.lit "a")));
    [|reflexivity].
  apply (reach_step UiSamples.fresh (ClickStart 50)); [|reflexivity].
  apply reach_first.
Qed.

(** X28.  The delete confirmation never outlives the player page: in every
    state the component goes through, the question "Tem certeza?" is
    pending only while the player detail view is selected. *)
Theorem ui_delete_confirmation_stays_on_page (u : State) :
  reachable u ->
  showDeleteConfirm u = true ->
  view u = PLAYER_DETAIL.
Proof.
  intros R. destruct (reachable_invariant u R) as (_ & _ & Hc & _).
  exact Hc.
Qed.

Lemma ui_delete_confirmation_stays_on_page_witness :
  view UiSamples.deletingAna = PLAYER_DETAIL.
Proof.
  apply (ui_delete_confirmation_stays_on_page UiSamples.deletingAna).
  - exact reachable_deletingAna.
  - reflexivity.
Defined.

End UiFacts.

(** ** The ledger and the chip audit in binary64 *)

Module DoubleFacts.
Import PrimFloat.
Import Double.
Local Open Scope float_scope.

Lemma fold_add_map {A} (f : A -> float) (l : list A) (a : float) :
  fold_left (fun sum x => sum + f x) l a = fold_left add (map f l) a.
Proof.
  revert a. induction l as [|x l IH]; intros a; simpl; [reflexivity|].
  apply IH.
Qed.

Lemma rebuyStep_chips_double (rs : list Rebuy) (t : Totals) :
  totalChips (fold_left rebuyStep rs t)
  = fold_left add (map amountOf rs) (totalChips t).
Proof.
  revert t. induction rs as [|r rs IH]; intros t; simpl; [reflexivity|].
  now rewrite IH.
Qed.

Lemma players_chips_double (st : GameState) (ps : list Player) (t : Totals) :
  totalChips (fold_left (playerStep st) ps t)
  = fold_left add
      (flat_map
         (fun p =>
            (num (buyInAmount (config st)) - 10) :: map amountOf (rebuys p))
         ps)
      (totalChips t).
Proof.
  revert t. induction ps as [|p ps IH]; intros t; [reflexivity|].
  cbn [fold_left flat_map]. rewrite IH. unfold playerStep.
  rewrite rebuyStep_chips_double, fold_left_app. reflexivity.
Qed.

Lemma totalChips_sumL (st : GameState) :
  totalChips (calculateTotals st) = sumL (chipContributions st).
Proof. unfold calculateTotals. now rewrite players_chips_double. Qed.

Lemma amountOf_forget (rs : list Rebuy) :
  map amountOf (map forgetRebuyStatus rs) = map amountOf rs.
Proof. rewrite map_map. now apply map_ext. Qed.

Lemma chipContributions_forget (st : GameState) :
  chipContributions (forgetStatuses st) = chipContributions st.
Proof.
  unfold chipContributions. rewrite LedgerFacts.validPlayers_forget.
  induction (Ledger.validPlayers st) as [|p ps IH]; [reflexivity|].
  cbn [map flat_map]. rewrite IH. simpl. now rewrite amountOf_forget.
Qed.

(** The double [totalChips] of buy-in 50 with rebuys of 1.1 and 2.2 is
    43.300000000000004: not the double [(50 - 10) + (1.1 + 2.2)], and in
    value neither the sum of the three doubles added nor the sum 43.3 of the
    amounts entered. *)
Lemma totalChips_is_rounded :
  (totalChips (calculateTotals DoubleSamples.rebuys_1_1_and_2_2)
   =? (num 50 - 10) + (num (11 # 10) + num (22 # 10))) = false
  /\ ~ (exactly (totalChips (calculateTotals DoubleSamples.rebuys_1_1_and_2_2))
        == (exactly (num 50) - 10)
           + (exactly (num (11 # 10)) + exactly (num (22 # 10))))%Q
  /\ ~ (exactly (totalChips (calculateTotals DoubleSamples.rebuys_1_1_and_2_2))
        == chipsCredited DoubleSamples.rebuys_1_1_and_2_2)%Q.
Proof.
  split; [vm_compute; reflexivity|].
  split; intros H; vm_compute in H; discriminate H.
Qed.

(** C1, amended.  [totalChips] does not depend on any payment status, and
    it is the sum taken from the left, in doubles, of the chips credited in
    ledger order: for each non-ghost player in list order the buy-in less
    10, then that player's rebuy amounts. *)
Theorem totalChips_in_ledger_order (st st' : GameState) :
  forgetStatuses st' = forgetStatuses st ->
  totalChips (calculateTotals st) = sumL (chipContributions st)
  /\ totalChips (calculateTotals st') = totalChips (calculateTotals st).
Proof.
  intros E. split; [apply totalChips_sumL|].
  rewrite !totalChips_sumL.
  now rewrite <- (chipContributions_forget st'), E, chipContributions_forget.
Qed.

Lemma totalChips_in_ledger_order_witness :
  totalChips (calculateTotals Samples.withRebuysOf30)
  = sumL (chipContributions Samples.withRebuysOf30)
  /\ totalChips (calculateTotals Samples.withRebuysAllPaid)
     = totalChips (calculateTotals Samples.withRebuysOf30).
Proof.
  apply (totalChips_in_ledger_order Samples.withRebuysOf30
           Samples.withRebuysAllPaid).
  reflexivity.
Defined.

Lemma paid_fold_double (rs : list Rebuy) (a : float) :
  fold_left
    (fun sum r =>
       match status r with PAID => sum + num (amount r) | PENDING => sum end)
    rs a
  = fold_left add (map amountOf (filter isPaid rs)) a.
Proof.
  revert a. induction rs as [|r rs IH]; intros a; simpl; [reflexivity|].
  rewrite IH. unfold isPaid. now destruct (status r).
Qed.

(** With a buy-in of 50 pending and rebuys of 20.1 paid and 20.1 pending,
    [paidCash] is 20.1, [pendingCash] is 70.1 (to the nearest double) and
    their sum is 90.19999999999999, while [totalCostCash] is 90.2. *)
Lemma paid_plus_pending_is_rounded :
  (paidCash DoubleSamples.rebuys_of_20_1 DoubleSamples.anaWith_20_1
   + pendingCash DoubleSamples.rebuys_of_20_1 DoubleSamples.anaWith_20_1
   =? totalCostCash DoubleSamples.rebuys_of_20_1 DoubleSamples.anaWith_20_1)
  = false
  /\ ~ (exactly (paidCash DoubleSamples.rebuys_of_20_1
                   DoubleSamples.anaWith_20_1)
        + exactly (pendingCash DoubleSamples.rebuys_of_20_1
                     DoubleSamples.anaWith_20_1)
        == exactly (totalCostCash DoubleSamples.rebuys_of_20_1
                      DoubleSamples.anaWith_20_1))%Q.
Proof.
  split; [vm_compute; reflexivity|].
  intros H; vm_compute in H; discriminate H.
Qed.

(** C6, amended.  For every player, [pendingCash] is the double
    [totalCostCash - paidCash], where [paidCash] is the buy-in if it is PAID
    (else 0) plus the amounts of the PAID rebuys and [totalCostCash] is the
    buy-in plus all rebuy amounts, each sum taken from the left in
    doubles. *)
Theorem pendingCash_is_rounded_difference (st : GameState) (p : Player) :
  pendingCash st p = totalCostCash st p - paidCash st p
  /\ paidCash st p
     = (if PaymentStatus_eqb (buyInStatus p) PAID
        then num (buyInAmount (config st)) else 0)
       + sumL (map amountOf (filter isPaid (rebuys p)))
  /\ totalCostCash st p
     = num (buyInAmount (config st)) + sumL (map amountOf (rebuys p)).
Proof.
  split; [reflexivity|]. split.
  - unfold paidCash. rewrite paid_fold_double. now destruct (buyInStatus p).
  - unfold totalCostCash. now rewrite (fold_add_map amountOf).
Qed.

Lemma ltb_zero_antisym (d : float) : (d <? 0) = true -> (0 <? d) = false.
Proof.
  rewrite !FloatAxioms.ltb_spec.
  change (FloatOps.Prim2SF 0) with (SpecFloat.S754_zero false).
  destruct (FloatOps.Prim2SF d) as [s|s| |s m e]; simpl;
    try discriminate; destruct s; simpl; auto; discriminate.
Qed.

(** C4.  [chipsDifference] is [totalChips] less the sum of the declared
    cashouts of the non-ghost players (absent ones counting 0), added
    from the left; [isBalanced] holds exactly when its absolute value is
    below 0.1, the double [0x1.999999999999ap-4]; and an unbalanced audit
    reports a positive difference as chips missing and a negative one as
    chips in excess.  An absent cashout and a cashout of 0 count 0, every
    other cashout counts itself. *)
Theorem chip_audit (st : GameState) :
  chipsDifference st
  = totalChips (calculateTotals st)
    - sumL (map (fun p => orZero (cashoutAmount p)) (Ledger.validPlayers st))
  /\ (isBalanced st = true
      <-> (abs (chipsDifference st) <? 0x1.999999999999ap-4) = true)
  /\ (isBalanced st = true -> chipAudit st = Balanced)
  /\ (isBalanced st = false ->
      (0 <? chipsDifference st) = true ->
      chipAudit st = ChipsMissing (chipsDifference st))
  /\ (isBalanced st = false ->
      (chipsDifference st <? 0) = true ->
      chipAudit st = ChipsExcess (abs (chipsDifference st)))
  /\ orZero None = 0
  /\ (forall q, (num q =? 0) = true -> orZero (Some q) = 0)
  /\ (forall q,
        (num q =? 0) = false -> (num q =? num q) = true ->
        orZero (Some q) = num q).
Proof.
  split; [|split; [|split; [|split; [|split; [|split; [|split]]]]]].
  - unfold chipsDifference, totalCashoutDeclared, sumL.
    now rewrite fold_add_map.
  - reflexivity.
  - unfold chipAudit. now intros ->.
  - unfold chipAudit. now intros -> ->.
  - unfold chipAudit. intros -> H.
    now rewrite (ltb_zero_antisym _ H).
  - reflexivity.
  - intros q H. unfold orZero. now rewrite H.
  - intros q H1 H2. unfold orZero. now rewrite H1, H2.
Qed.

Lemma chip_audit_witness :
  chipAudit Samples.shortBy5 = ChipsMissing (chipsDifference Samples.shortBy5)
  /\ chipsDifference Samples.shortBy5 = 5.
Proof.
  split; [|reflexivity].
  apply (proj1 (proj2 (proj2 (proj2 (chip_audit Samples.shortBy5)))));
    reflexivity.
Defined.

(** [num] on a few decimals, and the values the doubles stand for. *)
Example num_of_decimals :
  num 50 = 50
  /\ num (1 # 10) = 0x1.999999999999ap-4
  /\ num (11 # 10) = 0x1.199999999999ap+0
  /\ num (-5 # 2) = (-2.5)
  /\ num 0 = 0
  /\ (exactly (num (-5 # 2)) == -5 # 2)%Q
  /\ (exactly 0x1p+60 == inject_Z (2 ^ 60))%Q
  /\ (exactly (num (11 # 10)) == 2476979795053773 # 2251799813685248)%Q.
Proof. repeat split. Qed.

(** 80 chips against cashouts of 80 and 0.1: the difference comes out as
    -0.09999999999999432 and the audit reads balanced. *)
Example one_tenth_over_reads_balanced :
  chipsDifference DoubleSamples.over_by_one_tenth
  = (-0x1.99999999998p-4)
  /\ chipAudit DoubleSamples.over_by_one_tenth = Balanced.
Proof. split; reflexivity. Qed.

End DoubleFacts.
